(** * MPVScreensaver: a model of [screensaver.py] and its properties

    The script resolves a list of video paths against the filesystem,
    writes an ephemeral mpv configuration directory, launches one mpv
    process per configured display, waits until one of them exits (or the
    user interrupts), tears all of them down and deletes the directory.

    The program is effectful; it is embedded here as functions in a small
    state-and-exception monad over an explicit [World] (filesystem, process
    table, chronological trace of externally visible actions).  Everything
    the operating system decides (which paths exist, which random directory
    names are drawn, whether [notify-send] and [mpv] can be started, when
    children exit, when the user presses Ctrl-C, how a child reacts to
    SIGTERM) is an explicit input of the run.

    Conventions of the model:
    - [argparse] is not modelled; a run starts from the parsed [Namespace];
    - [gettempdir] is the absolute, normalised path that
      [tempfile.gettempdir()] returns and the drawn names are made of
      letters, digits and underscores, so that wrapping the created path
      in [Path] leaves it as it is;
    - [write_text] into the fresh directory, [print], and the removal of
      the directory succeed; a [notify-send] that could be started returns;
    - during the monitoring loop time passes only in [time.sleep(0.1)]:
      children exit on their own and Ctrl-C arrives there, one [tick] per
      sleep.  A Ctrl-C at another moment (during the launch loop, a wait or
      the final removal) is not part of the model; no statement below is
      about such a run;
    - [Diverge] stands for a call that never returns: the monitoring loop in
      an environment where nothing more happens, or [proc.wait()] on a child
      that never exits. *)

From Stdlib Require Import ZArith String Ascii List Lia Bool.
From stdpp Require Import base decidable option list gmap strings pretty fin_maps.

Import ListNotations.
Local Open Scope string_scope.
Local Open Scope list_scope.

(** ** Python string helpers *)

Module PyStr.

(** [s.startswith(p)] *)
Fixpoint startswith (p s : string) : bool :=
  match p, s with
  | EmptyString, _ => true
  | String a p', String b s' => if Ascii.eqb a b then startswith p' s' else false
  | String _ _, EmptyString => false
  end.

(** [sub in s] *)
Fixpoint contains (sub s : string) : bool :=
  startswith sub s ||
  match s with
  | EmptyString => false
  | String _ s' => contains sub s'
  end.

(** The scan of [s.replace(old, new)] for a non-empty [old]: left to
    right, non-overlapping.  [skip] counts the characters of a match that
    were already consumed. *)
Fixpoint replace_scan (old new : string) (skip : nat) (s : string) : string :=
  match s with
  | EmptyString => EmptyString
  | String c s' =>
      match skip with
      | S k => replace_scan old new k s'
      | O =>
          if startswith old s
          then new +:+ replace_scan old new (Nat.pred (String.length old)) s'
          else String c (replace_scan old new O s')
      end
  end.

(** For the empty pattern Python inserts [new] before every character
    and at the end. *)
Fixpoint intersperse (new s : string) : string :=
  match s with
  | EmptyString => new
  | String c s' => new +:+ String c (intersperse new s')
  end.

Definition replace (old new s : string) : string :=
  match old with
  | EmptyString => intersperse new s
  | String _ _ => replace_scan old new O s
  end.

(** [s.split(sep)] for a one-character separator, used to read a
    document as its list of lines. *)
Fixpoint split_on (sep : ascii) (s : string) : list string :=
  match s with
  | EmptyString => [EmptyString]
  | String c s' =>
      if Ascii.eqb c sep then EmptyString :: split_on sep s'
      else match split_on sep s' with
           | [] => [String c EmptyString]
           | l :: ls => String c l :: ls
           end
  end.

Definition lines (s : string) : list string := split_on "010"%char s.

(** [sep.join(l)] *)
Definition join (sep : string) (l : list string) : string := String.concat sep l.

(** [s.endswith(suffix)] *)
Definition endswith (suffix s : string) : bool :=
  Nat.leb (String.length suffix) (String.length s) &&
  String.eqb (String.substring (String.length s - String.length suffix)
                (String.length suffix) s) suffix.

(** [str(n)] for an [int] *)
Definition str_int (n : Z) : string := pretty n.

End PyStr.

(** ** Configuration section of the script *)

Definition dquote : string := String "034"%char EmptyString.

(** The user-editable constants [DISPLAYS] and [VIDEO_PATH]. *)
Record Config := {
  DISPLAYS : list Z;
  VIDEO_PATH : list string;
}.

(** The values the repository ships. *)
Definition shipped_config : Config := {| DISPLAYS := [0%Z]; VIDEO_PATH := [] |}.

Definition MPV_CONF : string :=
"
hwdec=no
loop-playlist=inf
image-display-duration=7
ao=null
fullscreen=yes
ontop
osc=no
osd-level=0
vo=gpu-next
input-default-bindings=no
cursor-autohide=always
title=" +:+ dquote +:+ "MPVScreensaver" +:+ dquote +:+ "
stop-screensaver=no
".

Definition INPUT_CONF : string :=
"
MOUSE_MOVE ignore
MOUSE_ENTER ignore
MOUSE_LEAVE ignore
MBTN_LEFT quit
MBTN_RIGHT quit
UNMAPPED keybind UNMAPPED quit
".

(** ** [adjust_mpv_conf] *)

Definition adjust_mpv_conf (video_count : Z) : string :=
  if (video_count =? 1)%Z
  then PyStr.replace "loop-playlist=inf" "loop=inf" MPV_CONF
  else MPV_CONF.

(** ** The world the script runs in *)

(** What a path can name.  [os.path.exists] does not distinguish them. *)
Inductive node :=
| RegularFile (content : string)
| Directory
| Special.

(** A child process as the parent sees it; the handle of a child is its
    index in the process table. *)
Inductive proc_state :=
| Running
| Exited (returncode : Z).

Abbreviation handle := nat (only parsing).

Inductive exn :=
| StopIteration
| KeyboardInterrupt
| OSError
| FileExistsError
| FileNotFoundError.

(** Externally visible actions, recorded in the order they happen. *)
Inductive event :=
| EvRun (argv : list string)                       (* subprocess.run *)
| EvRunFailed (argv : list string)                 (* subprocess.run: the program could not be started *)
| EvPrint (line : string)                          (* print *)
| EvMkdtemp (dir : string)                         (* tempfile.mkdtemp *)
| EvWriteText (path : string) (content : string)   (* Path.write_text *)
| EvPopen (cmd : list string) (proc : option handle) (* subprocess.Popen; None: the spawn failed *)
| EvTerminate (proc : handle)                      (* Popen.terminate *)
| EvWait (proc : handle)                           (* Popen.wait returned *)
| EvRmtree (dir : string).                         (* shutil.rmtree *)

Record World := {
  fs : gmap string node;
  procs : list proc_state;
  trace : list event;
}.

Definition init_world (fs0 : gmap string node) : World :=
  {| fs := fs0; procs := []; trace := [] |}.

Definition log (e : event) (w : World) : World :=
  {| fs := fs w; procs := procs w; trace := trace w ++ [e] |}.

Definition with_fs (f : gmap string node) (w : World) : World :=
  {| fs := f; procs := procs w; trace := trace w |}.

Definition with_procs (p : list proc_state) (w : World) : World :=
  {| fs := fs w; procs := p; trace := trace w |}.

(** What happens while the script sleeps in its monitoring loop: some
    children exit on their own, or the user presses Ctrl-C. *)
Inductive tick :=
| Exits (children : list (handle * Z))
| Interrupt.

(** The result of [parser.parse_args()]. *)
Record Namespace := {
  videos : list string;
  dry_run : bool;
}.

(** Everything outside the script's control during one run. *)
Record Env := {
  cli : Namespace;            (* the parsed command line *)
  gettempdir : string;        (* tempfile.gettempdir() *)
  tmp_names : list string;    (* the random names mkdtemp draws, in order *)
  run_fails : list string -> bool;  (* can subprocess.run not start this command? *)
  popen_fails : nat -> bool;  (* does the spawn for the i-th display fail? *)
  ignores_sigterm : handle -> bool;  (* does this child stay alive on SIGTERM? *)
  term_status : handle -> Z;  (* the return code of a child that SIGTERM ends *)
  exits_later : handle -> option Z;
    (* for a child still running when it is waited for: the return code it
       ends with on its own, if it ever does *)
  script : list tick;         (* one tick per time.sleep(0.1) *)
}.

(** ** State and exception monad *)

Inductive result (A : Type) :=
| Ok (a : A)
| Raise (e : exn)
| Diverge.   (* blocks or loops forever *)
Arguments Ok {A} a.
Arguments Raise {A} e.
Arguments Diverge {A}.

Definition M (A : Type) : Type := World -> result A * World.

Definition ret {A} (a : A) : M A := fun w => (Ok a, w).

Definition bind {A B} (m : M A) (k : A -> M B) : M B :=
  fun w =>
    match m w with
    | (Ok a, w') => k a w'
    | (Raise e, w') => (Raise e, w')
    | (Diverge, w') => (Diverge, w')
    end.

Definition raise {A} (e : exn) : M A := fun w => (Raise e, w).

Definition diverge {A} : M A := fun w => (Diverge, w).

Declare Scope py_scope.
Delimit Scope py_scope with py.
Notation "x <- c1 ;; c2" := (bind c1 (fun x => c2))
  (at level 100, c1 at next level, right associativity) : py_scope.
Notation "c1 ;; c2" := (bind c1 (fun _ => c2))
  (at level 100, right associativity) : py_scope.
Local Open Scope py_scope.

(** [for x in l: body], with the local variables the body assigns
    threaded through as [st]. *)
Fixpoint for_fold {A S} (l : list A) (st : S) (body : A -> S -> M S) : M S :=
  match l with
  | [] => ret st
  | x :: l' => st' <- body x st ;; for_fold l' st' body
  end.

Definition for_each {A} (l : list A) (body : A -> M unit) : M unit :=
  for_fold l tt (fun x _ => body x).

(** [try: body except ...: handler]; [handler e = None] when no clause
    matches [e]. *)
Definition try_except {A} (body : M A) (handler : exn -> option (M A)) : M A :=
  fun w =>
    match body w with
    | (Raise e, w') =>
        match handler e with
        | Some h => h w'
        | None => (Raise e, w')
        end
    | other => other
    end.

(** [try: body finally: fin]: [fin] runs however [body] ended, and the
    pending exception is re-raised after it. *)
Definition try_finally {A} (body : M A) (fin : M unit) : M A :=
  fun w =>
    match body w with
    | (Diverge, w') => (Diverge, w')
    | (r, w') =>
        match fin w' with
        | (Ok _, w'') => (r, w'')
        | (Raise e, w'') => (Raise e, w'')
        | (Diverge, w'') => (Diverge, w'')
        end
    end.

(** [enumerate(l)] *)
Fixpoint enumerate_from {A} (i : nat) (l : list A) : list (nat * A) :=
  match l with
  | [] => []
  | x :: l' => (i, x) :: enumerate_from (S i) l'
  end.

Definition enumerate {A} (l : list A) : list (nat * A) := enumerate_from 0 l.

(** ** Operating-system primitives *)

Definition print (line : string) : M unit := fun w => (Ok tt, log (EvPrint line) w).

(** [subprocess.run(argv)]: raises [OSError] ([FileNotFoundError] is a
    subclass) when the program cannot be started; its exit status is not
    looked at. *)
Definition subprocess_run (env : Env) (argv : list string) : M unit :=
  fun w =>
    if run_fails env argv
    then (Raise OSError, log (EvRunFailed argv) w)
    else (Ok tt, log (EvRun argv) w).

(** [os.path.exists(path)]: true for whatever kind of entry [path] names. *)
Definition path_exists (f : gmap string node) (path : string) : bool :=
  bool_decide (is_Some (f !! path)).

Definition os_path_exists (path : string) : M bool :=
  fun w => (Ok (path_exists (fs w) path), w).

(** [os.path.join(a, b)] on POSIX paths. *)
Definition os_path_join (a b : string) : string :=
  if PyStr.startswith "/" b then b
  else if String.eqb a "" || PyStr.endswith "/" a then a +:+ b
  else a +:+ "/" +:+ b.

(** [tempfile.mkdtemp(prefix=...)]: try the drawn names in turn and create
    the first [os.path.join(dir, prefix + name)] that is free. *)
Fixpoint mkdtemp_pick (dir pfx : string) (names : list string)
    (f : gmap string node) : option string :=
  match names with
  | [] => None
  | n :: names' =>
      let p := os_path_join dir (pfx +:+ n) in
      match f !! p with
      | None => Some p
      | Some _ => mkdtemp_pick dir pfx names' f
      end
  end.

Definition mkdtemp (env : Env) (pfx : string) : M string :=
  fun w =>
    match mkdtemp_pick (gettempdir env) pfx (tmp_names env) (fs w) with
    | None => (Raise FileExistsError, w)
    | Some p => (Ok p, log (EvMkdtemp p) (with_fs (<[p := Directory]> (fs w)) w))
    end.

(** [dir / name] on paths *)
Definition path_join (dir name : string) : string := dir +:+ "/" +:+ name.

(** [path.write_text(content)] *)
Definition write_text (path content : string) : M unit :=
  fun w => (Ok tt, log (EvWriteText path content)
                       (with_fs (<[path := RegularFile content]> (fs w)) w)).

(** Is [path] the directory [dir] itself or something below it? *)
Definition in_tree (dir path : string) : bool :=
  String.eqb dir path || PyStr.startswith (dir +:+ "/") path.

(** [shutil.rmtree(dir)] *)
Definition rmtree (dir : string) : M unit :=
  fun w =>
    match fs w !! dir with
    | None => (Raise FileNotFoundError, w)
    | Some _ =>
        (Ok tt, log (EvRmtree dir)
                    (with_fs (filter (fun kv => in_tree dir kv.1 = false) (fs w)) w))
    end.

(** [subprocess.Popen(cmd)] for the [i]-th display. *)
Definition Popen (env : Env) (i : nat) (cmd : list string) : M handle :=
  fun w =>
    if popen_fails env i
    then (Raise OSError, log (EvPopen cmd None) w)
    else
      let h := length (procs w) in
      (Ok h, log (EvPopen cmd (Some h)) (with_procs (procs w ++ [Running]) w)).

(** [proc.poll()]: the return code, or [None] while the child runs. *)
Definition poll_state (ps : list proc_state) (proc : handle) : option Z :=
  match ps !! proc with
  | Some (Exited rc) => Some rc
  | _ => None
  end.

Definition poll (proc : handle) : M (option Z) :=
  fun w => (Ok (poll_state (procs w) proc), w).

(** [proc.terminate()]: sends SIGTERM.  A running child ends on it, with
    the return code the environment gives ([-SIGTERM] when the signal kills
    it, its own status when it handles the signal), unless it ignores the
    signal; a child that has already exited is left as it is. *)
Definition SIGTERM : Z := 15.

Definition signal_term (env : Env) (ps : list proc_state) (proc : handle)
    : list proc_state :=
  match ps !! proc with
  | Some Running =>
      if ignores_sigterm env proc then ps
      else <[proc := Exited (term_status env proc)]> ps
  | _ => ps
  end.

Definition terminate (env : Env) (proc : handle) : M unit :=
  fun w => (Ok tt, log (EvTerminate proc) (with_procs (signal_term env (procs w) proc) w)).

(** A child exits on its own. *)
Definition child_exit (ps : list proc_state) (c : handle * Z) : list proc_state :=
  match ps !! c.1 with
  | Some Running => <[c.1 := Exited c.2]> ps
  | _ => ps
  end.

(** [proc.wait()]: returns the return code of a child that has exited;
    otherwise blocks until the child exits on its own, for ever if it never
    does. *)
Definition wait (env : Env) (proc : handle) : M Z :=
  fun w =>
    match poll_state (procs w) proc with
    | Some rc => (Ok rc, log (EvWait proc) w)
    | None =>
        match exits_later env proc with
        | Some rc =>
            (Ok rc, log (EvWait proc) (with_procs (child_exit (procs w) (proc, rc)) w))
        | None => (Diverge, w)
        end
    end.

(** [time.sleep(0.1)], during which [t] happens. *)
Definition sleep (t : tick) : M unit :=
  fun w =>
    match t with
    | Interrupt => (Raise KeyboardInterrupt, w)
    | Exits children => (Ok tt, with_procs (foldl child_exit (procs w) children) w)
    end.

(** ** The script *)

Definition send_notification (env : Env) (message : string) (urgent : bool) : M unit :=
  let app_name := "MPVScreensaver" in
  let urgency := if urgent then "critical" else "normal" in
  subprocess_run env ["notify-send"; "-a"; app_name; "-u"; urgency; message].

(** The list [parse_arguments] filters: the command-line videos, or
    [VIDEO_PATH] when none were given. *)
Definition working_list (cfg : Config) (args : Namespace) : list string :=
  match videos args with
  | [] => VIDEO_PATH cfg
  | _ :: _ => videos args
  end.

(** The body of the filtering loop; the loop's variables are
    [(valid_videos, notifications_sent)]. *)
Definition filter_step (env : Env) (file : string) (st : list string * Z)
    : M (list string * Z) :=
  let '(valid_videos, notifications_sent) := st in
  found <- os_path_exists file ;;
  if found then ret (valid_videos ++ [file], notifications_sent)
  else if (notifications_sent <? 3)%Z then
    send_notification env ("File not found: " +:+ file) false ;;
    ret (valid_videos, (notifications_sent + 1)%Z)
  else ret (valid_videos, notifications_sent).

Definition parse_arguments (cfg : Config) (env : Env) : M (Namespace * list string) :=
  let args := cli env in
  let video_list := working_list cfg args in
  st <- for_fold video_list ([], 0%Z) (filter_step env) ;;
  ret (args, st.1).

Definition create_temp_config_dir (env : Env) (video_count : Z) : M string :=
  temp_dir <- mkdtemp env "mpvconfig_" ;;
  let adjusted_conf := adjust_mpv_conf video_count in
  write_text (path_join temp_dir "mpv.conf") adjusted_conf ;;
  write_text (path_join temp_dir "input.conf") INPUT_CONF ;;
  ret temp_dir.

(** [len(video_list)] as Python prints it. *)
Definition len_str (l : list string) : string := PyStr.str_int (Z.of_nat (length l)).

Definition mpv_cmd (config_dir : string) (display : Z) (video_list : list string)
    : list string :=
  ["mpv"; "--config-dir=" +:+ config_dir; "--fs-screen=" +:+ PyStr.str_int display]
    ++ video_list.

(** The body of the launch loop; the loop's variable is [processes]. *)
Definition launch_step (env : Env) (args : Namespace) (config_dir : string)
    (video_list : list string) (x : nat * Z) (processes : list handle)
    : M (list handle) :=
  let '(i, display) := x in
  let cmd := mpv_cmd config_dir display video_list in
  if dry_run args then
    print ("Would launch mpv for display " +:+ PyStr.str_int display +:+ " with "
             +:+ len_str video_list +:+ " videos") ;;
    print ("Command: " +:+ PyStr.join " " cmd) ;;
    ret processes
  else
    proc <- Popen env i cmd ;;
    print ("Launched mpv for display " +:+ PyStr.str_int display +:+ " with "
             +:+ len_str video_list +:+ " videos") ;;
    ret (processes ++ [proc]).

(** One pass of [for proc in processes: if proc.poll() is not None: raise
    StopIteration]. *)
Definition poll_pass (processes : list handle) : M unit :=
  for_each processes (fun proc =>
    rc <- poll proc ;;
    match rc with
    | Some _ => raise StopIteration
    | None => ret tt
    end).

(** [while True: <poll pass>; time.sleep(0.1)].  When the environment has
    nothing more to say and no child has exited, the loop never ends. *)
Fixpoint monitor (processes : list handle) (ticks : list tick) : M unit :=
  poll_pass processes ;;
  match ticks with
  | [] => diverge
  | t :: ticks' => sleep t ;; monitor processes ticks'
  end.

(** The [finally] block. *)
Definition teardown (env : Env) (processes : list handle) : M unit :=
  for_each processes (fun proc =>
    rc <- poll proc ;;
    match rc with
    | None => terminate env proc
    | Some _ => ret tt
    end) ;;
  for_each processes (fun proc => wait env proc ;; ret tt).

Definition monitor_handlers (e : exn) : option (M unit) :=
  match e with
  | StopIteration => Some (ret tt)
  | KeyboardInterrupt => Some (print "Interrupted by user")
  | _ => None
  end.

Definition main (cfg : Config) (env : Env) : M unit :=
  parsed <- parse_arguments cfg env ;;
  let '(args, video_list) := parsed in
  match video_list with
  | [] =>
      send_notification env "No videos to play" true ;;
      print "No videos to play"
  | _ :: _ =>
      config_dir <- create_temp_config_dir env (Z.of_nat (length video_list)) ;;
      print ("Temporary config directory: " +:+ config_dir) ;;
      processes <- for_fold (enumerate (DISPLAYS cfg)) []
                     (launch_step env args config_dir video_list) ;;
      match processes with
      | _ :: _ =>
          try_finally
            (try_except (monitor processes (script env)) monitor_handlers)
            (teardown env processes)
      | [] => ret tt
      end ;;
      rmtree config_dir
  end.

(** The exit status of the interpreter running [main()] as the script. *)
Definition exit_status (r : result unit) : option Z :=
  match r with
  | Ok _ => Some 0%Z
  | Raise _ => Some 1%Z
  | Diverge => None
  end.

Definition run (cfg : Config) (env : Env) (fs0 : gmap string node) : result unit * World :=
  main cfg env (init_world fs0).


(** * Properties *)

(** ** Vocabulary for statements *)

(** [es] happen after everything already recorded in [w]. *)
Definition extend (es : list event) (w : World) : World :=
  {| fs := fs w; procs := procs w; trace := trace w ++ es |}.

(** The command line of a notification, and the event of its being run. *)
Definition notification_argv (message : string) (urgent : bool) : list string :=
  ["notify-send"; "-a"; "MPVScreensaver"; "-u";
   if urgent then "critical" else "normal"; message].

Definition notification_event (message : string) (urgent : bool) : event :=
  EvRun (notification_argv message urgent).

Definition not_found_argv (path : string) : list string :=
  notification_argv ("File not found: " +:+ path) false.

Definition not_found_event (path : string) : event :=
  notification_event ("File not found: " +:+ path) false.

(** The entries of [l] that exist, and those that do not, in the order of [l]. *)
Definition existing (f : gmap string node) (l : list string) : list string :=
  List.filter (path_exists f) l.

Definition missing (f : gmap string node) (l : list string) : list string :=
  List.filter (fun p => negb (path_exists f p)) l.

Definition is_urgent_notification (e : event) : bool :=
  match e with
  | EvRun ["notify-send"; "-a"; _; "-u"; "critical"; _] => true
  | _ => false
  end.

Definition is_notification (e : event) : bool :=
  match e with
  | EvRun ("notify-send" :: _) => true
  | _ => false
  end.

Definition is_popen (e : event) : bool :=
  match e with EvPopen _ _ => true | _ => false end.

Definition is_mkdtemp (e : event) : bool :=
  match e with EvMkdtemp _ => true | _ => false end.

(** The world right after [create_temp_config_dir] made [dir]. *)
Definition materialized (dir : string) (video_count : Z) (w : World) : World :=
  {| fs := <[path_join dir "input.conf" := RegularFile INPUT_CONF]>
             (<[path_join dir "mpv.conf" := RegularFile (adjust_mpv_conf video_count)]>
                (<[dir := Directory]> (fs w)));
     procs := procs w;
     trace := trace w ++ [EvMkdtemp dir;
                          EvWriteText (path_join dir "mpv.conf") (adjust_mpv_conf video_count);
                          EvWriteText (path_join dir "input.conf") INPUT_CONF] |}.

(** What the launch loop prints for one display in a dry run. *)
Definition dry_run_prints (config_dir : string) (video_list : list string)
    (display : Z) : list event :=
  [EvPrint ("Would launch mpv for display " +:+ PyStr.str_int display +:+ " with "
              +:+ len_str video_list +:+ " videos");
   EvPrint ("Command: " +:+ PyStr.join " " (mpv_cmd config_dir display video_list))].

(** What the launch loop does for the displays [ds] when every spawn
    succeeds; [h] is the handle the first child gets. *)
Fixpoint launched_events (config_dir : string) (video_list : list string)
    (h : handle) (ds : list Z) : list event :=
  match ds with
  | [] => []
  | display :: ds' =>
      EvPopen (mpv_cmd config_dir display video_list) (Some h)
      :: EvPrint ("Launched mpv for display " +:+ PyStr.str_int display +:+ " with "
                    +:+ len_str video_list +:+ " videos")
      :: launched_events config_dir video_list (S h) ds'
  end.

(** Projections of a trace: the command lines of all spawn attempts, the
    handles sent a termination request, the handles waited on. *)
Definition popen_attempts (tr : list event) : list (list string) :=
  flat_map (fun e => match e with EvPopen cmd _ => [cmd] | _ => [] end) tr.

Definition terminated (tr : list event) : list handle :=
  flat_map (fun e => match e with EvTerminate h => [h] | _ => [] end) tr.

Definition waited (tr : list event) : list handle :=
  flat_map (fun e => match e with EvWait h => [h] | _ => [] end) tr.

Definition removed (tr : list event) : list string :=
  flat_map (fun e => match e with EvRmtree d => [d] | _ => [] end) tr.

Definition created (tr : list event) : list string :=
  flat_map (fun e => match e with EvMkdtemp d => [d] | _ => [] end) tr.

Definition spawned (tr : list event) : list handle :=
  flat_map (fun e => match e with EvPopen _ (Some h) => [h] | _ => [] end) tr.

Definition printed (tr : list event) : list string :=
  flat_map (fun e => match e with EvPrint line => [line] | _ => [] end) tr.

(** The loop directive [adjust_mpv_conf] leaves in the settings. *)
Definition loop_directive (video_count : Z) : string :=
  if (video_count =? 1)%Z then "loop=inf" else "loop-playlist=inf".

(** ** Sample runs *)

Definition fs_demo : gmap string node :=
  {[ "a.mp4" := RegularFile "A"; "b.mp4" := RegularFile "B"; "/videos" := Directory ]}.

Definition cli_demo (dry : bool) : Namespace :=
  {| videos := ["a.mp4"; "x"; "b.mp4"; "y"; "z"; "/videos"; "u"]; dry_run := dry |}.

Definition never : nat -> bool := fun _ => false.

(** Every program [subprocess.run] is asked for can be started. *)
Definition starts_all : list string -> bool := fun _ => false.

(** No program can be started, as when [notify-send] is not installed. *)
Definition starts_none : list string -> bool := fun _ => true.

(** SIGTERM kills. *)
Definition killed : handle -> Z := fun _ => (- SIGTERM)%Z.

(** A child that is still running when waited for never exits. *)
Definition never_exits : handle -> option Z := fun _ => None.

Definition env_demo (dry : bool) (fails : nat -> bool) (ticks : list tick) : Env :=
  {| cli := cli_demo dry; gettempdir := "/tmp"; tmp_names := ["k3j2"];
     run_fails := starts_all; popen_fails := fails; ignores_sigterm := never;
     term_status := killed; exits_later := never_exits; script := ticks |}.

(** As [env_demo], with a second player that ignores SIGTERM and never
    exits. *)
Definition env_stubborn (ticks : list tick) : Env :=
  {| cli := cli_demo false; gettempdir := "/tmp"; tmp_names := ["k3j2"];
     run_fails := starts_all; popen_fails := never;
     ignores_sigterm := fun h => Nat.eqb h 1;
     term_status := killed; exits_later := never_exits; script := ticks |}.

(** As [env_stubborn], but the second player quits on its own (a key is
    pressed) with status 4 while [main] waits for it. *)
Definition env_slow (ticks : list tick) : Env :=
  {| cli := cli_demo false; gettempdir := "/tmp"; tmp_names := ["k3j2"];
     run_fails := starts_all; popen_fails := never;
     ignores_sigterm := fun h => Nat.eqb h 1;
     term_status := killed; exits_later := fun _ => Some 4%Z; script := ticks |}.

(** As [env_demo], without [notify-send]. *)
Definition env_no_notifier (videos : list string) (dry : bool) : Env :=
  {| cli := {| videos := videos; dry_run := dry |};
     gettempdir := "/tmp"; tmp_names := ["k3j2"];
     run_fails := starts_none; popen_fails := never; ignores_sigterm := never;
     term_status := killed; exits_later := never_exits; script := [Interrupt] |}.

Definition two_displays : Config := {| DISPLAYS := [0%Z; 1%Z]; VIDEO_PATH := [] |}.

Definition dir_demo : string := "/tmp/mpvconfig_k3j2".

(** Four paths, none of which exists. *)
Definition env_nothing : Env :=
  {| cli := {| videos := ["x"; "y"; "z"; "u"]; dry_run := false |};
     gettempdir := "/tmp"; tmp_names := ["k3j2"];
     run_fails := starts_all; popen_fails := never; ignores_sigterm := never;
     term_status := killed; exits_later := never_exits; script := [] |}.

(** No command-line videos. *)
Definition env_no_args : Env :=
  {| cli := {| videos := []; dry_run := false |};
     gettempdir := "/tmp"; tmp_names := ["k3j2"];
     run_fails := starts_all; popen_fails := never; ignores_sigterm := never;
     term_status := killed; exits_later := never_exits; script := [] |}.

Definition with_fallback : Config :=
  {| DISPLAYS := [0%Z]; VIDEO_PATH := ["a.mp4"; "gone.mp4"] |}.

(** Has some child among [hs] exited, as far as [poll] can tell? *)
Definition is_running (ps : list proc_state) (h : handle) : bool :=
  match poll_state ps h with
  | None => true
  | Some _ => false
  end.

Definition some_exited (ps : list proc_state) (hs : list handle) : bool :=
  existsb (fun h => negb (is_running ps h)) hs.

(** How the monitoring loop over [hs] ends when the children are in
    states [ps] and the environment plays [ticks], and the states it
    leaves. *)
Fixpoint monitor_outcome (hs : list handle) (ticks : list tick)
    (ps : list proc_state) : result unit * list proc_state :=
  if some_exited ps hs then (Raise StopIteration, ps)
  else match ticks with
       | [] => (Diverge, ps)
       | Interrupt :: _ => (Raise KeyboardInterrupt, ps)
       | Exits children :: ticks' =>
           monitor_outcome hs ticks' (foldl child_exit ps children)
       end.

(** Do the ticks contain a Ctrl-C or the exit of one of the first [n]
    children? *)
Definition ends_loop (n : nat) (ticks : list tick) : bool :=
  existsb (fun t => match t with
                    | Interrupt => true
                    | Exits children => existsb (fun c => Nat.ltb c.1 n) children
                    end) ticks.

(** What is left of a filesystem after [shutil.rmtree(dir)]. *)
Definition without_tree (dir : string) (f : gmap string node) : gmap string node :=
  filter (fun kv => in_tree dir kv.1 = false) f.

(** The part of [main] that follows the announcement of the configuration
    directory: launch, monitor, tear down, delete. *)
Definition coordinate (cfg : Config) (env : Env) (args : Namespace)
    (config_dir : string) (video_list : list string) : M unit :=
  processes <- for_fold (enumerate (DISPLAYS cfg)) []
                 (launch_step env args config_dir video_list) ;;
  match processes with
  | _ :: _ =>
      try_finally
        (try_except (monitor processes (script env)) monitor_handlers)
        (teardown env processes)
  | [] => ret tt
  end ;;
  rmtree config_dir.

(** The world in which [coordinate] starts. *)
Definition announced (cfg : Config) (env : Env) (dir : string)
    (video_list : list string) (w : World) : World :=
  extend [EvPrint ("Temporary config directory: " +:+ dir)]
    (materialized dir (Z.of_nat (length video_list))
       (extend (map not_found_event
                  (take 3 (missing (fs w) (working_list cfg (cli env))))) w)).

(** ** Vocabulary for whole runs *)

(** The argument vectors of all [subprocess.run] calls in a trace. *)
Definition ran (tr : list event) : list (list string) :=
  flat_map (fun e => match e with EvRun argv => [argv] | _ => [] end) tr.

(** The documents written in a trace, as (path, content). *)
Definition written (tr : list event) : list (string * string) :=
  flat_map (fun e => match e with EvWriteText p c => [(p, c)] | _ => [] end) tr.

(** The failed [subprocess.run] and [Popen] calls of a trace. *)
Definition failed_calls (tr : list event) : list event :=
  flat_map (fun e => match e with
                     | EvRunFailed _ | EvPopen _ None => [e]
                     | _ => []
                     end) tr.

(** Is [e] a [subprocess.run] or [Popen] call that could not start its
    program? *)
Definition is_failed_call (e : event) : bool :=
  match e with
  | EvRunFailed _ | EvPopen _ None => true
  | _ => false
  end.

(** All [subprocess.run] calls of a trace, failed or not. *)
Definition run_calls (tr : list event) : list (list string) :=
  flat_map (fun e => match e with
                     | EvRun argv | EvRunFailed argv => [argv]
                     | _ => []
                     end) tr.

(** The notifications for [paths], one after the other, up to the first
    one that cannot be started: what is recorded, and whether all went
    through. *)
Fixpoint notify_each (env : Env) (paths : list string) : list event * bool :=
  match paths with
  | [] => ([], true)
  | p :: paths' =>
      if run_fails env (not_found_argv p)
      then ([EvRunFailed (not_found_argv p)], false)
      else (not_found_event p :: (notify_each env paths').1, (notify_each env paths').2)
  end.

(** The notifications a run is to send: one for each of the first three
    missing paths, then the critical one when no listed video exists. *)
Definition planned_notifications (cfg : Config) (env : Env) (fs0 : gmap string node)
    : list (list string) :=
  map not_found_argv (take 3 (missing fs0 (working_list cfg (cli env))))
  ++ match existing fs0 (working_list cfg (cli env)) with
     | [] => [notification_argv "No videos to play" true]
     | _ :: _ => []
     end.

(** Every notification that [parse_arguments] sends in this run can be
    started, so that the resolution of the videos returns. *)
Definition notifier_works (cfg : Config) (env : Env) (fs0 : gmap string node) : Prop :=
  forall p, In p (take 3 (missing fs0 (working_list cfg (cli env)))) ->
    run_fails env (not_found_argv p) = false.

(** Would [proc.wait()] on [h] block for ever, the children being in
    states [ps]? *)
Definition stuck (env : Env) (ps : list proc_state) (h : handle) : bool :=
  is_running ps h && match exits_later env h with None => true | Some _ => false end.

(** How the loop [for proc in processes: proc.wait()] goes when the
    children are in states [ps]: does it get through, and for which
    handles did the wait return. *)
Fixpoint wait_outcome (env : Env) (ps : list proc_state) (hs : list handle)
    : bool * list handle :=
  match hs with
  | [] => (true, [])
  | h :: hs' =>
      if stuck env ps h then (false, [])
      else (fst (wait_outcome env ps hs'), h :: snd (wait_outcome env ps hs'))
  end.

(** The states after a wait on [h] returned. *)
Definition late_exit (env : Env) (ps : list proc_state) (h : handle) : list proc_state :=
  match exits_later env h with
  | Some rc => child_exit ps (h, rc)
  | None => ps
  end.

(** Every player that is running when [main] waits for it exits, on the
    termination request or later on its own. *)
Definition players_exit (cfg : Config) (env : Env) : Prop :=
  forall h, h < length (DISPLAYS cfg) ->
    ignores_sigterm env h = false \/ exits_later env h <> None.

(** The index of the first display whose spawn fails, if any. *)
Definition first_failure (env : Env) (n : nat) : option nat :=
  List.find (popen_fails env) (seq 0 n).

(** What [main] prints when the monitoring loop ended with [r]. *)
Definition interrupt_note (r : result unit) : list event :=
  match r with
  | Raise KeyboardInterrupt => [EvPrint "Interrupted by user"]
  | _ => []
  end.

(** The end of the monitoring loop of a run in which every display got its
    player: the way it ended and the children's states at that moment. *)
Definition loop_end (cfg : Config) (env : Env) : result unit * list proc_state :=
  monitor_outcome (seq 0 (length (DISPLAYS cfg))) (script env)
    (replicate (length (DISPLAYS cfg)) Running).

(** The children's states after the termination requests of the [finally]
    block. *)
Definition torn_down (cfg : Config) (env : Env) : list proc_state :=
  foldl (signal_term env) (loop_end cfg env).2 (seq 0 (length (DISPLAYS cfg))).

(** The handles that get a termination request. *)
Definition still_running (cfg : Config) (env : Env) : list handle :=
  List.filter (is_running (loop_end cfg env).2) (seq 0 (length (DISPLAYS cfg))).

(** The handles for which the wait of the [finally] block returns, and the
    children's states after these waits. *)
Definition reaped (cfg : Config) (env : Env) : list handle :=
  (wait_outcome env (torn_down cfg env) (seq 0 (length (DISPLAYS cfg)))).2.

Definition waited_down (cfg : Config) (env : Env) : list proc_state :=
  foldl (late_exit env) (torn_down cfg env) (reaped cfg env).

(** The ways a run of [main] can go, each with the world it leaves. *)
Inductive run_shape (cfg : Config) (env : Env) (fs0 : gmap string node)
    : result unit -> World -> Prop :=
| ResolutionFailed :
    (notify_each env (take 3 (missing fs0 (working_list cfg (cli env))))).2 = false ->
    run_shape cfg env fs0 (Raise OSError)
      (extend (notify_each env (take 3 (missing fs0 (working_list cfg (cli env))))).1
         (init_world fs0))
| NoVideos :
    notifier_works cfg env fs0 ->
    existing fs0 (working_list cfg (cli env)) = [] ->
    run_fails env (notification_argv "No videos to play" true) = false ->
    run_shape cfg env fs0 (Ok tt)
      (extend (map not_found_event (take 3 (missing fs0 (working_list cfg (cli env))))
               ++ [notification_event "No videos to play" true;
                   EvPrint "No videos to play"]) (init_world fs0))
| NoVideosUnnotified :
    notifier_works cfg env fs0 ->
    existing fs0 (working_list cfg (cli env)) = [] ->
    run_fails env (notification_argv "No videos to play" true) = true ->
    run_shape cfg env fs0 (Raise OSError)
      (extend (map not_found_event (take 3 (missing fs0 (working_list cfg (cli env))))
               ++ [EvRunFailed (notification_argv "No videos to play" true)])
         (init_world fs0))
| NoFreeName :
    notifier_works cfg env fs0 ->
    existing fs0 (working_list cfg (cli env)) <> [] ->
    mkdtemp_pick (gettempdir env) "mpvconfig_" (tmp_names env) fs0 = None ->
    run_shape cfg env fs0 (Raise FileExistsError)
      (extend (map not_found_event (take 3 (missing fs0 (working_list cfg (cli env)))))
         (init_world fs0))
| DryRun (dir : string) :
    notifier_works cfg env fs0 ->
    existing fs0 (working_list cfg (cli env)) <> [] ->
    mkdtemp_pick (gettempdir env) "mpvconfig_" (tmp_names env) fs0 = Some dir ->
    dry_run (cli env) = true ->
    let vl := existing fs0 (working_list cfg (cli env)) in
    let w0 := announced cfg env dir vl (init_world fs0) in
    run_shape cfg env fs0 (Ok tt)
      {| fs := without_tree dir (fs w0);
         procs := [];
         trace := trace w0 ++ concat (map (dry_run_prints dir vl) (DISPLAYS cfg))
                           ++ [EvRmtree dir] |}
| SpawnFailed (dir : string) (k : nat) (x : Z) :
    notifier_works cfg env fs0 ->
    existing fs0 (working_list cfg (cli env)) <> [] ->
    mkdtemp_pick (gettempdir env) "mpvconfig_" (tmp_names env) fs0 = Some dir ->
    dry_run (cli env) = false ->
    DISPLAYS cfg !! k = Some x ->
    (forall j, j < k -> popen_fails env j = false) ->
    popen_fails env k = true ->
    let vl := existing fs0 (working_list cfg (cli env)) in
    let w0 := announced cfg env dir vl (init_world fs0) in
    run_shape cfg env fs0 (Raise OSError)
      {| fs := fs w0;
         procs := replicate k Running;
         trace := trace w0 ++ launched_events dir vl 0 (take k (DISPLAYS cfg))
                           ++ [EvPopen (mpv_cmd dir x vl) None] |}
| NoDisplays (dir : string) :
    notifier_works cfg env fs0 ->
    existing fs0 (working_list cfg (cli env)) <> [] ->
    mkdtemp_pick (gettempdir env) "mpvconfig_" (tmp_names env) fs0 = Some dir ->
    dry_run (cli env) = false ->
    DISPLAYS cfg = [] ->
    let vl := existing fs0 (working_list cfg (cli env)) in
    let w0 := announced cfg env dir vl (init_world fs0) in
    run_shape cfg env fs0 (Ok tt)
      {| fs := without_tree dir (fs w0);
         procs := [];
         trace := trace w0 ++ [EvRmtree dir] |}
| LoopsForever (dir : string) :
    notifier_works cfg env fs0 ->
    existing fs0 (working_list cfg (cli env)) <> [] ->
    mkdtemp_pick (gettempdir env) "mpvconfig_" (tmp_names env) fs0 = Some dir ->
    dry_run (cli env) = false ->
    DISPLAYS cfg <> [] ->
    (forall j, j < length (DISPLAYS cfg) -> popen_fails env j = false) ->
    (loop_end cfg env).1 = Diverge ->
    let vl := existing fs0 (working_list cfg (cli env)) in
    let w0 := announced cfg env dir vl (init_world fs0) in
    run_shape cfg env fs0 Diverge
      {| fs := fs w0;
         procs := (loop_end cfg env).2;
         trace := trace w0 ++ launched_events dir vl 0 (DISPLAYS cfg) |}
| BlockedInWait (dir : string) :
    notifier_works cfg env fs0 ->
    existing fs0 (working_list cfg (cli env)) <> [] ->
    mkdtemp_pick (gettempdir env) "mpvconfig_" (tmp_names env) fs0 = Some dir ->
    dry_run (cli env) = false ->
    DISPLAYS cfg <> [] ->
    (forall j, j < length (DISPLAYS cfg) -> popen_fails env j = false) ->
    (loop_end cfg env).1 <> Diverge ->
    (wait_outcome env (torn_down cfg env) (seq 0 (length (DISPLAYS cfg)))).1 = false ->
    let vl := existing fs0 (working_list cfg (cli env)) in
    let w0 := announced cfg env dir vl (init_world fs0) in
    run_shape cfg env fs0 Diverge
      {| fs := fs w0;
         procs := waited_down cfg env;
         trace := trace w0 ++ launched_events dir vl 0 (DISPLAYS cfg)
                    ++ interrupt_note (loop_end cfg env).1
                    ++ map EvTerminate (still_running cfg env)
                    ++ map EvWait (reaped cfg env) |}
| Completed (dir : string) :
    notifier_works cfg env fs0 ->
    existing fs0 (working_list cfg (cli env)) <> [] ->
    mkdtemp_pick (gettempdir env) "mpvconfig_" (tmp_names env) fs0 = Some dir ->
    dry_run (cli env) = false ->
    DISPLAYS cfg <> [] ->
    (forall j, j < length (DISPLAYS cfg) -> popen_fails env j = false) ->
    (loop_end cfg env).1 <> Diverge ->
    (wait_outcome env (torn_down cfg env) (seq 0 (length (DISPLAYS cfg)))).1 = true ->
    let vl := existing fs0 (working_list cfg (cli env)) in
    let w0 := announced cfg env dir vl (init_world fs0) in
    run_shape cfg env fs0 (Ok tt)
      {| fs := without_tree dir (fs w0);
         procs := waited_down cfg env;
         trace := trace w0 ++ launched_events dir vl 0 (DISPLAYS cfg)
                    ++ interrupt_note (loop_end cfg env).1
                    ++ map EvTerminate (still_running cfg env)
                    ++ map EvWait (seq 0 (length (DISPLAYS cfg)))
                    ++ [EvRmtree dir] |}.

(** The same run with other command-line videos. *)
Definition with_videos (video_list : list string) (env : Env) : Env :=
  {| cli := {| videos := video_list; dry_run := dry_run (cli env) |};
     gettempdir := gettempdir env; tmp_names := tmp_names env;
     run_fails := run_fails env;
     popen_fails := popen_fails env; ignores_sigterm := ignores_sigterm env;
     term_status := term_status env; exits_later := exits_later env;
     script := script env |}.

(** More sample inputs. *)
Definition no_displays : Config := {| DISPLAYS := []; VIDEO_PATH := [] |}.

(** [fs_demo] in which the only name [mkdtemp] draws is taken. *)
Definition fs_taken : gmap string node := <[dir_demo := Directory]> fs_demo.

(** ** World bookkeeping *)

Lemma extend_nil w : extend [] w = w.
Proof. destruct w; unfold extend; simpl. by rewrite app_nil_r. Qed.

Lemma extend_extend es1 es2 w : extend es2 (extend es1 w) = extend (es1 ++ es2) w.
Proof. unfold extend; simpl. by rewrite app_assoc. Qed.

Lemma log_extend e w : log e w = extend [e] w.
Proof. reflexivity. Qed.

Lemma send_notification_ok env message urgent w :
  run_fails env (notification_argv message urgent) = false ->
  send_notification env message urgent w
  = (Ok tt, extend [notification_event message urgent] w).
Proof.
  intros H. unfold send_notification, subprocess_run.
  change (run_fails env _) with (run_fails env (notification_argv message urgent)).
  by rewrite H.
Qed.

Lemma send_notification_fails env message urgent w :
  run_fails env (notification_argv message urgent) = true ->
  send_notification env message urgent w
  = (Raise OSError, extend [EvRunFailed (notification_argv message urgent)] w).
Proof.
  intros H. unfold send_notification, subprocess_run.
  change (run_fails env _) with (run_fails env (notification_argv message urgent)).
  by rewrite H.
Qed.

(** ** Input resolution *)

Lemma notify_each_works env l :
  (forall p, In p l -> run_fails env (not_found_argv p) = false) ->
  notify_each env l = (map not_found_event l, true).
Proof.
  induction l as [|p l IH]; intros H; [done|].
  cbn [notify_each map]. rewrite H by (by left).
  rewrite IH by (intros q Hq; apply H; by right). reflexivity.
Qed.

Lemma notify_each_through env l :
  (notify_each env l).2 = true ->
  forall p, In p l -> run_fails env (not_found_argv p) = false.
Proof.
  induction l as [|q l IH]; intros H p Hp; [done|].
  cbn [notify_each] in H.
  destruct (run_fails env (not_found_argv q)) eqn:E; [done|].
  destruct Hp as [->|Hp]; [done|]. by apply IH.
Qed.

Lemma notify_each_stopped env l :
  (notify_each env l).2 = false ->
  exists done p,
    (notify_each env l).1 = map not_found_event done ++ [EvRunFailed (not_found_argv p)] /\
    In p l /\ run_fails env (not_found_argv p) = true /\
    (forall q, In q done -> run_fails env (not_found_argv q) = false) /\
    exists rest, l = done ++ p :: rest.
Proof.
  induction l as [|q l IH]; intros H; [done|].
  cbn [notify_each] in *.
  destruct (run_fails env (not_found_argv q)) eqn:E.
  - exists [], q. repeat split; [by left|done|done|by exists l].
  - destruct (IH H) as (done & p & Hev & Hin & Hf & Hd & rest & ->).
    exists (q :: done), p. cbn [fst map app]. rewrite Hev.
    repeat split; [by right|done| |by exists rest].
    intros r [->|Hr]; auto.
Qed.

Lemma notifier_works_iff cfg env fs0 :
  notifier_works cfg env fs0 <->
  (notify_each env (take 3 (missing fs0 (working_list cfg (cli env))))).2 = true.
Proof.
  split.
  - intros H. by rewrite notify_each_works.
  - intros H p. by apply notify_each_through.
Qed.

Lemma filter_loop_general env l : forall valid n w,
  exists n',
    for_fold l (valid, n) (filter_step env) w
    = (if (notify_each env (take (Z.to_nat (3 - n)) (missing (fs w) l))).2
       then Ok (valid ++ existing (fs w) l, n') else Raise OSError,
       extend (notify_each env (take (Z.to_nat (3 - n)) (missing (fs w) l))).1 w).
Proof.
  induction l as [|file l IH]; intros valid n w.
  - exists n. simpl. rewrite take_nil. simpl. by rewrite app_nil_r, extend_nil.
  - cbn [for_fold]. unfold bind at 1. unfold filter_step at 1.
    unfold bind at 1, os_path_exists at 1.
    unfold existing, missing. cbn [List.filter].
    destruct (path_exists (fs w) file) eqn:Hex; cbn [negb].
    + unfold ret at 1. destruct (IH (valid ++ [file]) n w) as [n' ->].
      exists n'. by rewrite <- app_assoc.
    + destruct (Z.ltb_spec n 3) as [Hlt|Hge].
      * replace (Z.to_nat (3 - n)) with (S (Z.to_nat (3 - (n + 1)))) by lia.
        cbn [take notify_each]. unfold bind at 1.
        change (not_found_argv file)
          with (notification_argv ("File not found: " +:+ file) false).
        destruct (run_fails env (notification_argv ("File not found: " +:+ file) false))
          eqn:Hrun.
        -- rewrite send_notification_fails by done. by exists n.
        -- rewrite send_notification_ok by done. unfold ret at 1.
           change (notification_event _ false) with (not_found_event file).
           destruct (IH valid (n + 1)%Z (extend [not_found_event file] w)) as [n' ->].
           exists n'. cbn [fst snd]. by rewrite extend_extend.
      * unfold ret at 1. destruct (IH valid n w) as [n' ->].
        exists n'. replace (Z.to_nat (3 - n)) with 0 by lia.
        reflexivity.
Qed.

Lemma parse_arguments_general cfg env w :
  parse_arguments cfg env w
  = (if (notify_each env (take 3 (missing (fs w) (working_list cfg (cli env))))).2
     then Ok (cli env, existing (fs w) (working_list cfg (cli env)))
     else Raise OSError,
     extend (notify_each env (take 3 (missing (fs w) (working_list cfg (cli env))))).1 w).
Proof.
  unfold parse_arguments, bind.
  destruct (filter_loop_general env (working_list cfg (cli env)) [] 0%Z w) as [n' ->].
  change (Z.to_nat (3 - 0)) with 3.
  by destruct (notify_each env _).2.
Qed.

Lemma parse_arguments_spec cfg env w :
  notifier_works cfg env (fs w) ->
  parse_arguments cfg env w
  = (Ok (cli env, existing (fs w) (working_list cfg (cli env))),
     extend (map not_found_event (take 3 (missing (fs w) (working_list cfg (cli env))))) w).
Proof.
  intros H. rewrite parse_arguments_general, notify_each_works by done. reflexivity.
Qed.

(** [notifier_works] says no more than that the resolution returns. *)
Lemma parse_arguments_returns_iff cfg env w :
  notifier_works cfg env (fs w) <->
  exists r w', parse_arguments cfg env w = (Ok r, w').
Proof.
  rewrite notifier_works_iff, parse_arguments_general.
  destruct (notify_each env _).2; split; try done.
  - intros _. by eexists _, _.
  - by intros (r & w' & [=]).
Qed.

Lemma parse_arguments_fallback cfg env w fallback :
  videos (cli env) <> [] ->
  parse_arguments {| DISPLAYS := DISPLAYS cfg; VIDEO_PATH := fallback |} env w
  = parse_arguments cfg env w.
Proof.
  intros H.
  assert (Hwl : forall c, working_list c (cli env) = videos (cli env)).
  { intros c. unfold working_list. destruct (videos (cli env)); congruence. }
  rewrite !parse_arguments_general. by rewrite !Hwl.
Qed.

Lemma not_found_argv_inj p q : not_found_argv p = not_found_argv q -> p = q.
Proof.
  unfold not_found_argv, notification_argv. intros H.
  injection H as H. cbv [String.append] in H. congruence.
Qed.

Lemma not_found_event_inj p q : not_found_event p = not_found_event q -> p = q.
Proof.
  unfold not_found_event, notification_event. intros H.
  apply not_found_argv_inj. unfold not_found_argv. congruence.
Qed.

Lemma missing_not_exists f l p : In p (missing f l) -> path_exists f p = false.
Proof.
  unfold missing. rewrite filter_In. intros [_ H]. by apply negb_true_iff.
Qed.

Lemma In_take {A} (x : A) n l : In x (take n l) -> In x l.
Proof.
  revert l; induction n as [|n IH]; intros [|y l]; simpl; try tauto.
  intros [->|H]; auto.
Qed.

Lemma length_missing_budget f l :
  length (map not_found_event (take 3 (missing f l))) = Nat.min (length (missing f l)) 3.
Proof. rewrite length_map, length_take. lia. Qed.

(** C4: with [k] entries of the working list missing, [parse_arguments]
    notifies the first three missing paths in list order, "File not found:
    <path>" at normal urgency, and sends nothing and fails nowhere for
    later ones.  When [notify-send] can be started for each of them, these
    are exactly [min k 3] notifications and the result is the working list
    filtered to the paths that exist, in their original order.  When it
    cannot, the first notification that fails to start ends the resolution
    with the error of [subprocess.run]: fewer than [min k 3] notifications
    were sent and no list is returned. *)
Theorem C4_resolve_notifies_min_k_3 (cfg : Config) (env : Env) (w : World) :
  let l := working_list cfg (cli env) in
  let k := length (missing (fs w) l) in
  (notifier_works cfg env (fs w) ->
   exists w',
     parse_arguments cfg env w = (Ok (cli env, List.filter (path_exists (fs w)) l), w') /\
     fs w' = fs w /\ procs w' = procs w /\
     trace w' = trace w ++ map not_found_event (take 3 (missing (fs w) l)) /\
     length (map not_found_event (take 3 (missing (fs w) l))) = Nat.min k 3 /\
     (forall e, In e (map not_found_event (take 3 (missing (fs w) l))) ->
        exists path, In path l /\ path_exists (fs w) path = false /\
          e = EvRun ["notify-send"; "-a"; "MPVScreensaver"; "-u"; "normal";
                     "File not found: " +:+ path])) /\
  (~ notifier_works cfg env (fs w) ->
   exists w' sent p rest,
     parse_arguments cfg env w = (Raise OSError, w') /\
     fs w' = fs w /\ procs w' = procs w /\
     take 3 (missing (fs w) l) = sent ++ p :: rest /\
     run_fails env (not_found_argv p) = true /\
     trace w' = trace w ++ map not_found_event sent ++ [EvRunFailed (not_found_argv p)] /\
     length sent < Nat.min k 3).
Proof.
  intros l k. subst l k. split.
  - intros Hworks. eexists. split; [by apply parse_arguments_spec|].
    repeat split; [apply length_missing_budget|].
    intros e He. apply in_map_iff in He as (path & <- & Hin).
    apply In_take in Hin. exists path. split; [|split].
    + unfold missing in Hin. apply filter_In in Hin. tauto.
    + by apply missing_not_exists in Hin.
    + reflexivity.
  - intros Hfails.
    assert (Hstop : (notify_each env
                       (take 3 (missing (fs w) (working_list cfg (cli env))))).2 = false).
    { destruct (notify_each env _).2 eqn:E; [|done].
      exfalso. apply Hfails. by apply notifier_works_iff. }
    destruct (notify_each_stopped _ _ Hstop)
      as (sent & p & Hev & _ & Hp & _ & rest & Hsplit).
    eexists _, sent, p, rest.
    split; [by rewrite parse_arguments_general, Hstop|].
    cbn [fs procs trace extend]. rewrite Hev. repeat split; try done.
    apply (f_equal length) in Hsplit.
    rewrite length_take, length_app in Hsplit. cbn [length] in Hsplit. lia.
Qed.

(** C7: without command-line videos [parse_arguments] works on the
    fallback [VIDEO_PATH] and, when [notify-send] can be started for the
    missing entries, returns the existing fallback entries (not always the
    empty list); with command-line videos the fallback plays no part in
    the result or in the notifications. *)
Theorem C7_fallback_only_without_candidates (cfg : Config) (env : Env) (w : World) :
  (videos (cli env) = [] ->
     working_list cfg (cli env) = VIDEO_PATH cfg /\
     (notifier_works cfg env (fs w) ->
      (parse_arguments cfg env w).1
        = Ok (cli env, List.filter (path_exists (fs w)) (VIDEO_PATH cfg)))) /\
  (videos (cli env) <> [] ->
     working_list cfg (cli env) = videos (cli env) /\
     (notifier_works cfg env (fs w) ->
      (parse_arguments cfg env w).1
        = Ok (cli env, List.filter (path_exists (fs w)) (videos (cli env)))) /\
     forall fallback,
       parse_arguments {| DISPLAYS := DISPLAYS cfg; VIDEO_PATH := fallback |} env w
       = parse_arguments cfg env w).
Proof.
  split; intros H.
  - assert (Hwl : working_list cfg (cli env) = VIDEO_PATH cfg)
      by (unfold working_list; by rewrite H).
    split; [done|]. intros Hworks. rewrite parse_arguments_spec by done.
    simpl. by rewrite Hwl.
  - assert (Hwl : working_list cfg (cli env) = videos (cli env)).
    { unfold working_list. destruct (videos (cli env)); congruence. }
    split; [done|]. split.
    + intros Hworks. rewrite parse_arguments_spec by done. simpl. by rewrite Hwl.
    + intros fallback. by apply parse_arguments_fallback.
Qed.

(** ** The phases of [main] *)

Lemma main_resolution_fails cfg env w :
  (notify_each env (take 3 (missing (fs w) (working_list cfg (cli env))))).2 = false ->
  main cfg env w
  = (Raise OSError,
     extend (notify_each env (take 3 (missing (fs w) (working_list cfg (cli env))))).1 w).
Proof.
  intros H. unfold main, bind. by rewrite parse_arguments_general, H.
Qed.

Lemma main_no_videos cfg env w :
  notifier_works cfg env (fs w) ->
  existing (fs w) (working_list cfg (cli env)) = [] ->
  run_fails env (notification_argv "No videos to play" true) = false ->
  main cfg env w
  = (Ok tt,
     extend (map not_found_event (take 3 (missing (fs w) (working_list cfg (cli env))))
             ++ [notification_event "No videos to play" true;
                 EvPrint "No videos to play"]) w).
Proof.
  intros Hworks H Hrun. unfold main, bind. rewrite parse_arguments_spec, H by done.
  rewrite send_notification_ok by done.
  unfold print. by rewrite log_extend, !extend_extend.
Qed.

Lemma main_no_videos_unnotified cfg env w :
  notifier_works cfg env (fs w) ->
  existing (fs w) (working_list cfg (cli env)) = [] ->
  run_fails env (notification_argv "No videos to play" true) = true ->
  main cfg env w
  = (Raise OSError,
     extend (map not_found_event (take 3 (missing (fs w) (working_list cfg (cli env))))
             ++ [EvRunFailed (notification_argv "No videos to play" true)]) w).
Proof.
  intros Hworks H Hrun. unfold main, bind. rewrite parse_arguments_spec, H by done.
  rewrite send_notification_fails by done. by rewrite extend_extend.
Qed.

Lemma printed_not_found_flat l :
  flat_map (fun e => match e with EvPrint line => [line] | _ => [] end)
    (map not_found_event l) = [].
Proof. induction l as [|q l IH]; [done|]. apply IH. Qed.

Lemma filter_not_found (P : event -> bool) l :
  (forall p, P (not_found_event p) = false) ->
  List.filter P (map not_found_event l) = [].
Proof.
  intros HP. induction l as [|p l IH]; [done|]. simpl. by rewrite HP.
Qed.

Lemma create_temp_config_dir_spec env n w :
  create_temp_config_dir env n w
  = match mkdtemp_pick (gettempdir env) "mpvconfig_" (tmp_names env) (fs w) with
    | Some dir => (Ok dir, materialized dir n w)
    | None => (Raise FileExistsError, w)
    end.
Proof.
  unfold create_temp_config_dir, bind, mkdtemp.
  destruct (mkdtemp_pick _ _ _ _) as [dir|]; [|done].
  unfold write_text, ret, log, with_fs, materialized. simpl.
  by rewrite <- !app_assoc.
Qed.

Lemma mkdtemp_pick_fresh dir pfx names f p :
  mkdtemp_pick dir pfx names f = Some p -> f !! p = None.
Proof.
  induction names as [|n names IH]; simpl; [done|].
  destruct (f !! os_path_join dir (pfx +:+ n)) eqn:E; [done|]. congruence.
Qed.

Lemma for_fold_cons {A S} (x : A) (l : list A) (st : S) (body : A -> S -> M S) w :
  for_fold (x :: l) st body w
  = match body x st w with
    | (Ok st', w') => for_fold l st' body w'
    | (Raise e, w') => (Raise e, w')
    | (Diverge, w') => (Diverge, w')
    end.
Proof. reflexivity. Qed.

Lemma launch_step_dry env args d vl i x ps w :
  dry_run args = true ->
  launch_step env args d vl (i, x) ps w = (Ok ps, extend (dry_run_prints d vl x) w).
Proof.
  intros Hdry. unfold launch_step. rewrite Hdry.
  unfold bind, print, ret. by rewrite !log_extend, extend_extend.
Qed.

Lemma launch_step_ok env args d vl i x ps w :
  dry_run args = false ->
  popen_fails env i = false ->
  launch_step env args d vl (i, x) ps w
  = (Ok (ps ++ [length (procs w)]),
     {| fs := fs w;
        procs := procs w ++ [Running];
        trace := trace w ++ launched_events d vl (length (procs w)) [x] |}).
Proof.
  intros Hdry Hok. unfold launch_step. rewrite Hdry.
  unfold bind, Popen. rewrite Hok. unfold print, ret, log, with_procs. cbn.
  by rewrite <- app_assoc.
Qed.

Lemma launch_step_fail env args d vl i x ps w :
  dry_run args = false ->
  popen_fails env i = true ->
  launch_step env args d vl (i, x) ps w
  = (Raise OSError, extend [EvPopen (mpv_cmd d x vl) None] w).
Proof.
  intros Hdry Hfail. unfold launch_step. rewrite Hdry.
  unfold bind, Popen. by rewrite Hfail.
Qed.

Lemma launch_dry env args d vl ds : forall i ps w,
  dry_run args = true ->
  for_fold (enumerate_from i ds) ps (launch_step env args d vl) w
  = (Ok ps, extend (concat (map (dry_run_prints d vl) ds)) w).
Proof.
  induction ds as [|x ds IH]; intros i ps w Hdry; cbn [enumerate_from map concat].
  - cbn. by rewrite extend_nil.
  - rewrite for_fold_cons, launch_step_dry, IH by done.
    by rewrite extend_extend.
Qed.

Lemma launch_ok env args d vl ds : forall i ps w,
  dry_run args = false ->
  (forall j, i <= j < i + length ds -> popen_fails env j = false) ->
  for_fold (enumerate_from i ds) ps (launch_step env args d vl) w
  = (Ok (ps ++ seq (length (procs w)) (length ds)),
     {| fs := fs w;
        procs := procs w ++ replicate (length ds) Running;
        trace := trace w ++ launched_events d vl (length (procs w)) ds |}).
Proof.
  induction ds as [|x ds IH]; intros i ps w Hdry Hok; cbn [enumerate_from].
  - cbn. unfold ret. rewrite !app_nil_r. by destruct w.
  - rewrite for_fold_cons, launch_step_ok by (try apply Hok; simpl; done || lia).
    rewrite IH; [|done|intros j Hj; apply Hok; simpl; lia].
    cbn [fs procs trace length seq replicate launched_events].
    rewrite length_app. cbn [length].
    replace (length (procs w) + 1) with (S (length (procs w))) by lia.
    by rewrite <- !app_assoc.
Qed.

Lemma launch_fail env args d vl ds1 x ds2 : forall i ps w,
  dry_run args = false ->
  (forall j, i <= j < i + length ds1 -> popen_fails env j = false) ->
  popen_fails env (i + length ds1) = true ->
  for_fold (enumerate_from i (ds1 ++ x :: ds2)) ps (launch_step env args d vl) w
  = (Raise OSError,
     {| fs := fs w;
        procs := procs w ++ replicate (length ds1) Running;
        trace := trace w ++ launched_events d vl (length (procs w)) ds1
                         ++ [EvPopen (mpv_cmd d x vl) None] |}).
Proof.
  induction ds1 as [|y ds1 IH]; intros i ps w Hdry Hok Hfail;
    cbn [app enumerate_from].
  - cbn [length] in Hfail. rewrite Nat.add_0_r in Hfail.
    rewrite for_fold_cons, launch_step_fail by done.
    unfold extend. cbn. by rewrite app_nil_r.
  - rewrite for_fold_cons, launch_step_ok by (try apply Hok; simpl; done || lia).
    rewrite IH; [|done|intros j Hj; apply Hok; simpl; lia|].
    + cbn [fs procs trace length seq replicate launched_events].
      rewrite length_app. cbn [length].
      replace (length (procs w) + 1) with (S (length (procs w))) by lia.
      by rewrite <- !app_assoc.
    + cbn [length] in Hfail. by replace (S i + length ds1) with (i + S (length ds1)) by lia.
Qed.

(** ** The monitoring loop *)

Lemma poll_pass_spec hs w :
  poll_pass hs w
  = (if some_exited (procs w) hs then Raise StopIteration else Ok tt, w).
Proof.
  unfold poll_pass, for_each. induction hs as [|h hs IH]; [done|].
  rewrite for_fold_cons. unfold bind at 1, poll at 1.
  cbn [some_exited existsb]. unfold is_running at 1.
  destruct (poll_state (procs w) h) as [rc|]; cbn [negb orb]; [done|].
  unfold ret at 1. apply IH.
Qed.

Lemma monitor_spec hs ticks : forall w,
  monitor hs ticks w
  = ((monitor_outcome hs ticks (procs w)).1,
     with_procs (monitor_outcome hs ticks (procs w)).2 w).
Proof.
  induction ticks as [|t ticks IH]; intros w; cbn [monitor monitor_outcome];
    unfold bind at 1; rewrite poll_pass_spec;
    destruct (some_exited (procs w) hs); try (by destruct w).
  destruct t as [children|]; unfold bind, sleep; [|by destruct w].
  rewrite IH. reflexivity.
Qed.

Lemma monitor_outcome_cases hs ticks : forall ps,
  (monitor_outcome hs ticks ps).1 = Raise StopIteration \/
  (monitor_outcome hs ticks ps).1 = Raise KeyboardInterrupt \/
  (monitor_outcome hs ticks ps).1 = Diverge.
Proof.
  induction ticks as [|t ticks IH]; intros ps; cbn [monitor_outcome];
    destruct (some_exited ps hs); auto.
  destruct t; auto.
Qed.

Lemma child_exit_length ps c : length (child_exit ps c) = length ps.
Proof.
  unfold child_exit. destruct (ps !! c.1) as [[]|]; by rewrite ?length_insert.
Qed.

Lemma foldl_child_exit_length cs : forall ps,
  length (foldl child_exit ps cs) = length ps.
Proof.
  induction cs as [|c cs IH]; intros ps; [done|]. cbn [foldl].
  by rewrite IH, child_exit_length.
Qed.

Lemma monitor_outcome_length hs ticks : forall ps,
  length (monitor_outcome hs ticks ps).2 = length ps.
Proof.
  induction ticks as [|t ticks IH]; intros ps; cbn [monitor_outcome];
    destruct (some_exited ps hs); try done.
  destruct t; [|done]. by rewrite IH, foldl_child_exit_length.
Qed.

(** A child that has exited stays exited. *)
Lemma child_exit_keeps ps c h :
  is_running ps h = false -> is_running (child_exit ps c) h = false.
Proof.
  unfold is_running, poll_state, child_exit. intros H.
  destruct (ps !! c.1) as [[|rc]|] eqn:E; try done.
  destruct (decide (c.1 = h)) as [Heq|Hne].
  - rewrite Heq in E. by rewrite E in H.
  - by rewrite list_lookup_insert_ne.
Qed.

Lemma child_exit_exits ps c :
  c.1 < length ps -> is_running (child_exit ps c) c.1 = false.
Proof.
  intros Hlt. unfold is_running, poll_state, child_exit.
  destruct (ps !! c.1) as [[|rc]|] eqn:E.
  - by rewrite list_lookup_insert_eq.
  - by rewrite E.
  - apply lookup_ge_None in E. lia.
Qed.

Lemma foldl_child_exit_keeps cs : forall ps h,
  is_running ps h = false -> is_running (foldl child_exit ps cs) h = false.
Proof.
  induction cs as [|c cs IH]; intros ps h H; [done|]. cbn [foldl].
  by apply IH, child_exit_keeps.
Qed.

Lemma foldl_child_exit_exits cs : forall ps c,
  In c cs -> c.1 < length ps -> is_running (foldl child_exit ps cs) c.1 = false.
Proof.
  induction cs as [|c' cs IH]; intros ps c Hin Hlt; [done|]. cbn [foldl].
  destruct Hin as [->|Hin].
  - by apply foldl_child_exit_keeps, child_exit_exits.
  - apply IH; [done|]. by rewrite child_exit_length.
Qed.

Lemma some_exited_seq ps n h :
  h < n -> is_running ps h = false -> some_exited ps (seq 0 n) = true.
Proof.
  intros Hlt Hex. unfold some_exited. apply existsb_exists.
  exists h. split; [apply in_seq; lia | by rewrite Hex].
Qed.

(** If the environment eventually interrupts or lets a watched child
    exit, the loop ends. *)
Lemma monitor_outcome_ends n ticks : forall ps,
  length ps = n ->
  ends_loop n ticks = true ->
  (monitor_outcome (seq 0 n) ticks ps).1 <> Diverge.
Proof.
  induction ticks as [|t ticks IH]; intros ps Hlen Hends; [done|].
  cbn [monitor_outcome]. destruct (some_exited ps (seq 0 n)) eqn:Hse; [done|].
  destruct t as [children|]; [|done].
  cbn [ends_loop existsb] in Hends. apply orb_true_iff in Hends as [Hnow|Hlater].
  - apply existsb_exists in Hnow as (c & Hin & Hc). apply Nat.ltb_lt in Hc.
    destruct ticks as [|t' ticks']; cbn [monitor_outcome];
      erewrite some_exited_seq; try done;
      apply foldl_child_exit_exits; (done || lia).
  - apply IH; [by rewrite foldl_child_exit_length | done].
Qed.

(** ** Teardown *)

(** A termination request acts like the child exiting, unless the child
    ignores the signal. *)
Lemma signal_term_child_exit env ps h :
  signal_term env ps h
  = if ignores_sigterm env h then ps else child_exit ps (h, term_status env h).
Proof.
  unfold signal_term, child_exit. cbn [fst snd].
  by destruct (ps !! h) as [[|rc]|], (ignores_sigterm env h).
Qed.

Lemma signal_term_length env ps h : length (signal_term env ps h) = length ps.
Proof.
  rewrite signal_term_child_exit.
  destruct (ignores_sigterm env h); [done | apply child_exit_length].
Qed.


Lemma signal_term_other env ps h h' :
  h <> h' -> is_running (signal_term env ps h) h' = is_running ps h'.
Proof.
  intros Hne. unfold is_running, poll_state, signal_term.
  destruct (ps !! h) as [[|rc]|]; try done.
  destruct (ignores_sigterm env h); [done|]. by rewrite list_lookup_insert_ne.
Qed.

Lemma signal_term_exited env ps h :
  is_running ps h = false -> signal_term env ps h = ps.
Proof.
  unfold is_running, poll_state, signal_term.
  by destruct (ps !! h) as [[|rc]|].
Qed.

Lemma foldl_signal_term_length env hs : forall ps,
  length (foldl (signal_term env) ps hs) = length ps.
Proof.
  induction hs as [|h hs IH]; intros ps; [done|]. cbn [foldl].
  by rewrite IH, signal_term_length.
Qed.



Lemma terminate_pass_spec env hs : forall w,
  NoDup hs ->
  for_each hs (fun proc =>
    rc <- poll proc ;;
    match rc with
    | None => terminate env proc
    | Some _ => ret tt
    end) w
  = (Ok tt,
     {| fs := fs w;
        procs := foldl (signal_term env) (procs w) hs;
        trace := trace w ++ map EvTerminate (List.filter (is_running (procs w)) hs) |}).
Proof.
  unfold for_each. induction hs as [|h hs IH]; intros w Hnd.
  - cbn. unfold ret. rewrite app_nil_r. by destruct w.
  - apply NoDup_cons in Hnd as [Hnotin Hnd]. rewrite list_elem_of_In in Hnotin.
    rewrite for_fold_cons. unfold bind at 1, poll at 1.
    cbn [List.filter foldl]. unfold is_running at 1.
    destruct (poll_state (procs w) h) as [rc|] eqn:Hp.
    + unfold ret at 1. rewrite IH by done.
      rewrite signal_term_exited; [done|]. unfold is_running. by rewrite Hp.
    + unfold terminate at 1. rewrite IH by done.
      cbn [fs procs trace log with_procs map].
      rewrite <- app_assoc. cbn [app].
      rewrite (filter_ext_in (is_running (signal_term env (procs w) h))
                 (is_running (procs w)));
        [done|].
      intros h' Hin. apply signal_term_other. congruence.
Qed.



(** ** Paths and the configuration directory *)

Lemma append_cons a s t : String a s +:+ t = String a (s +:+ t).
Proof. reflexivity. Qed.

Lemma append_assoc s t u : (s +:+ t) +:+ u = s +:+ t +:+ u.
Proof. induction s as [|a s IH]; [done|]. rewrite !append_cons. by rewrite IH. Qed.

Lemma startswith_append p s : PyStr.startswith p (p +:+ s) = true.
Proof.
  induction p as [|a p IH]; [done|]. rewrite append_cons. cbn [PyStr.startswith].
  by rewrite Ascii.eqb_refl.
Qed.

Lemma in_tree_self dir : in_tree dir dir = true.
Proof. unfold in_tree. by rewrite String.eqb_refl. Qed.

Lemma in_tree_child dir name : in_tree dir (path_join dir name) = true.
Proof.
  unfold in_tree, path_join. rewrite <- append_assoc, startswith_append.
  apply orb_true_r.
Qed.

Lemma without_tree_gone dir f path :
  in_tree dir path = true -> without_tree dir f !! path = None.
Proof.
  intros Hin. unfold without_tree. apply map_lookup_filter_None. right.
  intros x _. cbn. by rewrite Hin.
Qed.

Lemma without_tree_kept dir f path :
  in_tree dir path = false -> without_tree dir f !! path = f !! path.
Proof.
  intros Hout. unfold without_tree. destruct (f !! path) as [x|] eqn:E.
  - by apply map_lookup_filter_Some.
  - apply map_lookup_filter_None. by left.
Qed.

Lemma rmtree_spec dir w :
  is_Some (fs w !! dir) ->
  rmtree dir w
  = (Ok tt, {| fs := without_tree dir (fs w); procs := procs w;
               trace := trace w ++ [EvRmtree dir] |}).
Proof. intros [nd Hnd]. unfold rmtree. by rewrite Hnd. Qed.

Lemma materialized_has_dir dir n w : is_Some (fs (materialized dir n w) !! dir).
Proof.
  unfold materialized. cbn [fs].
  rewrite !lookup_insert. repeat case_decide; eauto; congruence.
Qed.

Lemma announced_has_dir cfg env dir vl w : is_Some (fs (announced cfg env dir vl w) !! dir).
Proof. unfold announced, extend. cbn [fs]. apply materialized_has_dir. Qed.

Lemma announced_procs cfg env dir vl w : procs (announced cfg env dir vl w) = procs w.
Proof. reflexivity. Qed.

(** ** [main], phase by phase *)

Lemma main_with_videos cfg env w v vl :
  notifier_works cfg env (fs w) ->
  existing (fs w) (working_list cfg (cli env)) = v :: vl ->
  main cfg env w
  = match mkdtemp_pick (gettempdir env) "mpvconfig_" (tmp_names env) (fs w) with
    | Some dir =>
        coordinate cfg env (cli env) dir (v :: vl) (announced cfg env dir (v :: vl) w)
    | None =>
        (Raise FileExistsError,
         extend (map not_found_event
                   (take 3 (missing (fs w) (working_list cfg (cli env))))) w)
    end.
Proof.
  intros Hworks H. unfold main. unfold bind at 1.
  rewrite parse_arguments_spec, H by done.
  unfold bind at 1. rewrite create_temp_config_dir_spec. cbn [fs extend].
  destruct (mkdtemp_pick _ _ _ _) as [dir|]; [|done].
  unfold bind at 1, print at 1. reflexivity.
Qed.

Lemma coordinate_dry cfg env args dir vl w :
  dry_run args = true ->
  is_Some (fs w !! dir) ->
  coordinate cfg env args dir vl w
  = (Ok tt,
     {| fs := without_tree dir (fs w);
        procs := procs w;
        trace := trace w ++ concat (map (dry_run_prints dir vl) (DISPLAYS cfg))
                         ++ [EvRmtree dir] |}).
Proof.
  intros Hdry Hdir. unfold coordinate, enumerate. unfold bind at 1.
  rewrite launch_dry by done. unfold bind, ret.
  rewrite rmtree_spec by done. unfold extend. cbn. by rewrite <- app_assoc.
Qed.

Lemma coordinate_spawn_fails cfg env args dir vl w ds1 x ds2 :
  dry_run args = false ->
  DISPLAYS cfg = ds1 ++ x :: ds2 ->
  (forall j, j < length ds1 -> popen_fails env j = false) ->
  popen_fails env (length ds1) = true ->
  coordinate cfg env args dir vl w
  = (Raise OSError,
     {| fs := fs w;
        procs := procs w ++ replicate (length ds1) Running;
        trace := trace w ++ launched_events dir vl (length (procs w)) ds1
                         ++ [EvPopen (mpv_cmd dir x vl) None] |}).
Proof.
  intros Hdry Hds Hok Hfail. unfold coordinate, enumerate. unfold bind at 1.
  rewrite Hds, launch_fail; [done|done| |done].
  intros j Hj. apply Hok. lia.
Qed.


Lemma match_nonempty {A B} (l : list A) (x y : B) :
  l <> [] -> match l with [] => x | _ :: _ => y end = y.
Proof. by destruct l. Qed.

Lemma coordinate_no_displays cfg env args dir vl w :
  dry_run args = false ->
  DISPLAYS cfg = [] ->
  is_Some (fs w !! dir) ->
  coordinate cfg env args dir vl w
  = (Ok tt, {| fs := without_tree dir (fs w); procs := procs w;
               trace := trace w ++ [EvRmtree dir] |}).
Proof.
  intros Hdry HD Hdir. unfold coordinate, enumerate. rewrite HD.
  unfold bind, ret. cbn [for_fold enumerate_from]. unfold ret.
  by rewrite rmtree_spec.
Qed.


(** ** The claims about a whole run *)

(** C6: when the resolution of the videos returns an empty list, [main]
    tries to send one critical "No videos to play" notification.  If
    [notify-send] can be started, that is the only critical notification,
    [main] prints the same message, makes no directory, spawns nothing, and
    returns normally, so the script exits with status 0.  If it cannot,
    the error of [subprocess.run] leaves [main] before anything is
    printed, and the script exits with status 1. *)
Theorem C6_no_videos_clean_exit (cfg : Config) (env : Env) (fs0 : gmap string node) :
  notifier_works cfg env fs0 ->
  List.filter (path_exists fs0) (working_list cfg (cli env)) = [] ->
  (run_fails env (notification_argv "No videos to play" true) = false ->
   exists w',
     run cfg env fs0 = (Ok tt, w') /\
     exit_status (run cfg env fs0).1 = Some 0%Z /\
     trace w' = map not_found_event (take 3 (missing fs0 (working_list cfg (cli env))))
                ++ [EvRun ["notify-send"; "-a"; "MPVScreensaver"; "-u"; "critical";
                           "No videos to play"];
                    EvPrint "No videos to play"] /\
     List.filter is_urgent_notification (trace w')
       = [notification_event "No videos to play" true] /\
     List.filter is_mkdtemp (trace w') = [] /\
     popen_attempts (trace w') = [] /\
     fs w' = fs0 /\ procs w' = []) /\
  (run_fails env (notification_argv "No videos to play" true) = true ->
   exists w',
     run cfg env fs0 = (Raise OSError, w') /\
     exit_status (run cfg env fs0).1 = Some 1%Z /\
     trace w' = map not_found_event (take 3 (missing fs0 (working_list cfg (cli env))))
                ++ [EvRunFailed ["notify-send"; "-a"; "MPVScreensaver"; "-u"; "critical";
                                 "No videos to play"]] /\
     printed (trace w') = [] /\
     List.filter is_urgent_notification (trace w') = [] /\
     fs w' = fs0 /\ procs w' = []).
Proof.
  intros Hworks Hempty. split; intros Hrun; unfold run.
  - rewrite main_no_videos by done.
    eexists. split; [reflexivity|].
    cbn [fst snd exit_status extend init_world trace fs procs app].
    split; [done|]. split; [done|].
    unfold popen_attempts.
    rewrite !List.filter_app, flat_map_app, !filter_not_found by done.
    repeat split; try done.
    cbn. rewrite app_nil_r. induction (take 3 _) as [|q l IH]; [done|]. apply IH.
  - rewrite main_no_videos_unnotified by done.
    eexists. split; [reflexivity|].
    cbn [fst snd exit_status extend init_world trace fs procs app].
    split; [done|]. split; [done|].
    unfold printed. rewrite flat_map_app, List.filter_app, filter_not_found by done.
    rewrite printed_not_found_flat. done.
Qed.

(** ** The settings document *)

Lemma adjust_mpv_conf_lines n :
  PyStr.lines (adjust_mpv_conf n) = <[2 := loop_directive n]> (PyStr.lines MPV_CONF).
Proof. unfold adjust_mpv_conf, loop_directive. by destruct (n =? 1)%Z; vm_compute. Qed.

Lemma adjust_mpv_conf_contains n :
  PyStr.contains "loop=inf" (adjust_mpv_conf n) = (n =? 1)%Z /\
  PyStr.contains "loop-playlist=inf" (adjust_mpv_conf n) = negb (n =? 1)%Z.
Proof. unfold adjust_mpv_conf. by destruct (n =? 1)%Z; vm_compute. Qed.

Lemma adjust_mpv_conf_directives n :
  (In "loop=inf" (PyStr.lines (adjust_mpv_conf n)) <-> n = 1%Z) /\
  (In "loop-playlist=inf" (PyStr.lines (adjust_mpv_conf n)) <-> n <> 1%Z).
Proof.
  rewrite <- !list_elem_of_In. unfold adjust_mpv_conf.
  destruct (Z.eqb_spec n 1) as [Heq|Hne]; split; split; intros H; try done.
  - by apply (bool_decide_unpack _).
  - exfalso. revert H. by apply (bool_decide_unpack (_ ∉ _)).
  - exfalso. revert H. by apply (bool_decide_unpack (_ ∉ _)).
  - by apply (bool_decide_unpack _).
Qed.

Lemma path_join_inj dir a b : path_join dir a = path_join dir b -> a = b.
Proof.
  unfold path_join. intros H. apply (inj (String.app dir)) in H.
  by apply (inj (String.app "/")) in H.
Qed.

(** C5: the settings document that [create_temp_config_dir] writes has the
    line [loop=inf] exactly when the video count is 1 and the line
    [loop-playlist=inf] exactly when it is not; every other line is the
    same for all counts, and the input-binding document is [INPUT_CONF]
    whatever the count. *)
Theorem C5_loop_directive_by_count (env : Env) (n : Z) (w : World) (dir : string) :
  mkdtemp_pick (gettempdir env) "mpvconfig_" (tmp_names env) (fs w) = Some dir ->
  exists w',
    create_temp_config_dir env n w = (Ok dir, w') /\
    fs w' !! path_join dir "mpv.conf" = Some (RegularFile (adjust_mpv_conf n)) /\
    fs w' !! path_join dir "input.conf" = Some (RegularFile INPUT_CONF) /\
    (In "loop=inf" (PyStr.lines (adjust_mpv_conf n)) <-> n = 1%Z) /\
    (In "loop-playlist=inf" (PyStr.lines (adjust_mpv_conf n)) <-> n <> 1%Z) /\
    PyStr.contains "loop=inf" (adjust_mpv_conf n) = (n =? 1)%Z /\
    PyStr.contains "loop-playlist=inf" (adjust_mpv_conf n) = negb (n =? 1)%Z /\
    PyStr.lines (adjust_mpv_conf n) !! 2 = Some (loop_directive n) /\
    forall m i, i <> 2 ->
      PyStr.lines (adjust_mpv_conf n) !! i = PyStr.lines (adjust_mpv_conf m) !! i.
Proof.
  intros Hdir. rewrite create_temp_config_dir_spec, Hdir.
  eexists. split; [reflexivity|]. unfold materialized. cbn [fs].
  split.
  { rewrite lookup_insert_ne, lookup_insert_eq; [done|].
    intros H. by apply path_join_inj in H. }
  split; [by rewrite lookup_insert_eq|].
  destruct (adjust_mpv_conf_directives n) as [H1 H2].
  destruct (adjust_mpv_conf_contains n) as [H3 H4].
  repeat split; try tauto.
  - by rewrite adjust_mpv_conf_lines.
  - intros m i Hi. rewrite !adjust_mpv_conf_lines.
    by rewrite !list_lookup_insert_ne.
Qed.

(** ** Whole runs *)

Lemma announced_trace cfg env dir vl fs0 :
  trace (announced cfg env dir vl (init_world fs0))
  = map not_found_event (take 3 (missing fs0 (working_list cfg (cli env))))
    ++ [EvMkdtemp dir;
        EvWriteText (path_join dir "mpv.conf") (adjust_mpv_conf (Z.of_nat (length vl)));
        EvWriteText (path_join dir "input.conf") INPUT_CONF;
        EvPrint ("Temporary config directory: " +:+ dir)].
Proof. unfold announced, materialized, extend. cbn. by rewrite <- app_assoc. Qed.

Lemma announced_outside cfg env dir vl w path :
  in_tree dir path = false ->
  fs (announced cfg env dir vl w) !! path = fs w !! path.
Proof.
  intros Hout. unfold announced, materialized, extend. cbn [fs].
  rewrite !lookup_insert_ne; [done| | |]; intros <-.
  - by rewrite in_tree_self in Hout.
  - by rewrite in_tree_child in Hout.
  - by rewrite in_tree_child in Hout.
Qed.

Lemma run_with_videos cfg env fs0 dir :
  notifier_works cfg env fs0 ->
  existing fs0 (working_list cfg (cli env)) <> [] ->
  mkdtemp_pick (gettempdir env) "mpvconfig_" (tmp_names env) fs0 = Some dir ->
  run cfg env fs0
  = coordinate cfg env (cli env) dir (existing fs0 (working_list cfg (cli env)))
      (announced cfg env dir (existing fs0 (working_list cfg (cli env))) (init_world fs0)).
Proof.
  intros Hworks Hne Hdir. unfold run.
  destruct (existing fs0 (working_list cfg (cli env))) as [|v vl] eqn:Hvl; [done|].
  rewrite (main_with_videos cfg env (init_world fs0) v vl) by done.
  cbn [fs init_world]. by rewrite Hdir.
Qed.

Lemma run_dry cfg env fs0 dir :
  notifier_works cfg env fs0 ->
  dry_run (cli env) = true ->
  existing fs0 (working_list cfg (cli env)) <> [] ->
  mkdtemp_pick (gettempdir env) "mpvconfig_" (tmp_names env) fs0 = Some dir ->
  let vl := existing fs0 (working_list cfg (cli env)) in
  let w0 := announced cfg env dir vl (init_world fs0) in
  run cfg env fs0
  = (Ok tt,
     {| fs := without_tree dir (fs w0);
        procs := [];
        trace := trace w0 ++ concat (map (dry_run_prints dir vl) (DISPLAYS cfg))
                          ++ [EvRmtree dir] |}).
Proof.
  intros Hworks Hdry Hne Hdir vl w0. rewrite (run_with_videos cfg env fs0 dir) by done.
  rewrite coordinate_dry; [done|done|apply announced_has_dir].
Qed.







(** ** Projections of the pieces of a trace *)

Lemma flat_map_map_nil {A B C} (f : B -> list C) (g : A -> B) l :
  (forall x, f (g x) = []) -> flat_map f (map g l) = [].
Proof. intros H. induction l as [|x l IH]; [done|]. cbn. by rewrite H, IH. Qed.

Lemma flat_map_map_single {A B} (f : B -> list A) (g : A -> B) l :
  (forall x, f (g x) = [x]) -> flat_map f (map g l) = l.
Proof. intros H. induction l as [|x l IH]; [done|]. cbn. by rewrite H, IH. Qed.

Lemma flat_map_launched_nil {C} (f : event -> list C) d vl ds : forall h,
  (forall cmd o, f (EvPopen cmd o) = []) ->
  (forall line, f (EvPrint line) = []) ->
  flat_map f (launched_events d vl h ds) = [].
Proof.
  induction ds as [|x ds IH]; intros h Hp Hl; [done|].
  cbn [launched_events flat_map]. by rewrite Hp, Hl, IH.
Qed.

Lemma popen_attempts_launched d vl ds : forall h,
  popen_attempts (launched_events d vl h ds) = map (fun display => mpv_cmd d display vl) ds.
Proof.
  induction ds as [|x ds IH]; intros h; [done|].
  unfold popen_attempts in *. cbn [launched_events flat_map map app]. by rewrite IH.
Qed.

Lemma spawned_launched d vl ds : forall h,
  spawned (launched_events d vl h ds) = seq h (length ds).
Proof.
  induction ds as [|x ds IH]; intros h; [done|].
  unfold spawned in *. cbn [launched_events flat_map length seq app]. by rewrite IH.
Qed.

Lemma created_announced cfg env dir vl fs0 :
  created (trace (announced cfg env dir vl (init_world fs0))) = [dir].
Proof.
  rewrite announced_trace. unfold created. rewrite flat_map_app.
  by rewrite flat_map_map_nil.
Qed.

Lemma popen_attempts_announced cfg env dir vl fs0 :
  popen_attempts (trace (announced cfg env dir vl (init_world fs0))) = [].
Proof.
  rewrite announced_trace. unfold popen_attempts. rewrite flat_map_app.
  by rewrite flat_map_map_nil.
Qed.

Lemma quiet_announced cfg env dir vl fs0 :
  terminated (trace (announced cfg env dir vl (init_world fs0))) = [] /\
  waited (trace (announced cfg env dir vl (init_world fs0))) = [] /\
  removed (trace (announced cfg env dir vl (init_world fs0))) = [] /\
  spawned (trace (announced cfg env dir vl (init_world fs0))) = [].
Proof.
  rewrite announced_trace. unfold terminated, waited, removed, spawned.
  rewrite !flat_map_app. by rewrite !flat_map_map_nil.
Qed.

Lemma flat_map_dry_nil {C} (f : event -> list C) d vl ds :
  (forall line, f (EvPrint line) = []) ->
  flat_map f (concat (map (dry_run_prints d vl) ds)) = [].
Proof.
  intros Hl. induction ds as [|x ds IH]; [done|].
  cbn [map concat dry_run_prints app flat_map]. by rewrite !Hl, IH.
Qed.

(** Rewrites the projections of mapped and launched pieces in the goal. *)
Ltac project_pieces :=
  repeat match goal with
  | |- context [flat_map ?f (map ?g ?l)] =>
      first [ rewrite (flat_map_map_nil f g l) by done
            | rewrite (flat_map_map_single f g l) by done ]
  | |- context [flat_map ?f (launched_events ?d ?vl ?h ?ds)] =>
      rewrite (flat_map_launched_nil f d vl ds h) by done
  | |- context [flat_map ?f (concat (map (dry_run_prints ?d ?vl) ?ds))] =>
      rewrite (flat_map_dry_nil f d vl ds) by done
  end.

(** ** Runs that launch players *)

Lemma run_spawn_fails cfg env fs0 dir k x :
  notifier_works cfg env fs0 ->
  dry_run (cli env) = false ->
  existing fs0 (working_list cfg (cli env)) <> [] ->
  mkdtemp_pick (gettempdir env) "mpvconfig_" (tmp_names env) fs0 = Some dir ->
  DISPLAYS cfg !! k = Some x ->
  (forall j, j < k -> popen_fails env j = false) ->
  popen_fails env k = true ->
  let vl := existing fs0 (working_list cfg (cli env)) in
  let w0 := announced cfg env dir vl (init_world fs0) in
  run cfg env fs0
  = (Raise OSError,
     {| fs := fs w0;
        procs := replicate k Running;
        trace := trace w0 ++ launched_events dir vl 0 (take k (DISPLAYS cfg))
                          ++ [EvPopen (mpv_cmd dir x vl) None] |}).
Proof.
  intros Hworks Hdry Hne Hdir Hk Hok Hfail vl w0.
  rewrite (run_with_videos cfg env fs0 dir) by done.
  assert (Hlen : length (take k (DISPLAYS cfg)) = k).
  { apply lookup_lt_Some in Hk. rewrite length_take. lia. }
  rewrite (coordinate_spawn_fails cfg env (cli env) dir _ _
             (take k (DISPLAYS cfg)) x (drop (S k) (DISPLAYS cfg)));
    rewrite ?Hlen; try done.
  by rewrite take_drop_middle.
Qed.


(** C2 (as the code behaves): once the videos are resolved and the
    directory is made, displays are attempted in the order of
    [DISPLAYS] up to and including the first one whose spawn fails; that
    failure is raised out of [main] at once, the failed attempt is the last
    thing the run does, no later display is attempted, and the script ends
    with a non-zero status whether or not earlier displays were spawned. *)
Theorem C2_first_spawn_failure_aborts (cfg : Config) (env : Env)
    (fs0 : gmap string node) (dir : string) (k : nat) :
  notifier_works cfg env fs0 ->
  dry_run (cli env) = false ->
  List.filter (path_exists fs0) (working_list cfg (cli env)) <> [] ->
  mkdtemp_pick (gettempdir env) "mpvconfig_" (tmp_names env) fs0 = Some dir ->
  k < length (DISPLAYS cfg) ->
  (forall j, j < k -> popen_fails env j = false) ->
  popen_fails env k = true ->
  let video_list := List.filter (path_exists fs0) (working_list cfg (cli env)) in
  exists w' pre x,
    run cfg env fs0 = (Raise OSError, w') /\
    exit_status (run cfg env fs0).1 = Some 1%Z /\
    DISPLAYS cfg !! k = Some x /\
    trace w' = pre ++ [EvPopen (mpv_cmd dir x video_list) None] /\
    popen_attempts (trace w')
      = map (fun display => mpv_cmd dir display video_list) (take (S k) (DISPLAYS cfg)) /\
    spawned (trace w') = seq 0 k.
Proof.
  intros Hworks Hdry Hne Hdir Hk Hok Hfail video_list.
  destruct (lookup_lt_is_Some_2 (DISPLAYS cfg) k Hk) as [x Hx].
  rewrite (run_spawn_fails cfg env fs0 dir k x) by done.
  do 3 eexists. split; [reflexivity|]. cbn [fst exit_status trace].
  split; [done|]. split; [done|]. split; [by rewrite !app_assoc|].
  assert (Hlen : length (take k (DISPLAYS cfg)) = k) by (rewrite length_take; lia).
  set (vl := existing fs0 (working_list cfg (cli env))).
  destruct (quiet_announced cfg env dir vl fs0) as (_ & _ & _ & Hs).
  pose proof (popen_attempts_announced cfg env dir vl fs0) as Hp.
  pose proof (popen_attempts_launched dir vl (take k (DISPLAYS cfg)) 0) as Hpl.
  pose proof (spawned_launched dir vl (take k (DISPLAYS cfg)) 0) as Hsl.
  unfold popen_attempts, spawned in *. rewrite !flat_map_app, Hp, Hs, Hpl, Hsl, Hlen.
  cbn [flat_map app]. split; [|by rewrite app_nil_r].
  rewrite (take_S_r _ _ x) by done. by rewrite map_app.
Qed.


(** ** The repository's tests, replayed on the model *)

Example test_adjust_mpv_conf_zero_videos :
  PyStr.contains "loop-playlist=inf" (adjust_mpv_conf 0) = true /\
  PyStr.contains "loop=inf" (adjust_mpv_conf 0) = false /\
  adjust_mpv_conf 0 = MPV_CONF.
Proof. by vm_compute. Qed.

Example test_adjust_mpv_conf_one_video :
  PyStr.contains "loop-playlist=inf" (adjust_mpv_conf 1) = false /\
  PyStr.contains "loop=inf" (adjust_mpv_conf 1) = true /\
  PyStr.contains "image-display-duration=7" (adjust_mpv_conf 1) = true.
Proof. by vm_compute. Qed.

Example test_adjust_mpv_conf_many_videos :
  PyStr.contains "loop-playlist=inf" (adjust_mpv_conf 5) = true /\
  PyStr.contains "loop=inf" (adjust_mpv_conf 5) = false.
Proof. by vm_compute. Qed.

Example test_parse_arguments_missing_files_limit_notifications :
  let r := parse_arguments shipped_config (env_demo false never []) (init_world fs_demo) in
  r.1 = Ok (cli_demo false, ["a.mp4"; "b.mp4"; "/videos"]) /\
  trace r.2 = [not_found_event "x"; not_found_event "y"; not_found_event "z"].
Proof. by vm_compute. Qed.

Example test_parse_arguments_default_video_path :
  (parse_arguments shipped_config env_no_args (init_world fs_demo)).1
  = Ok (cli env_no_args, VIDEO_PATH shipped_config).
Proof. by vm_compute. Qed.

(** ** Two whole runs *)

(** Two displays; the second player exits during the second sleep. *)
Example run_first_finisher :
  let r := run two_displays (env_demo false never [Exits []; Exits [(1, 0%Z)]]) fs_demo in
  r.1 = Ok tt /\
  procs r.2 = [Exited (-15); Exited 0] /\
  drop 7 (trace r.2)
  = [EvPopen (mpv_cmd dir_demo 0 ["a.mp4"; "b.mp4"; "/videos"]) (Some 0);
     EvPrint "Launched mpv for display 0 with 3 videos";
     EvPopen (mpv_cmd dir_demo 1 ["a.mp4"; "b.mp4"; "/videos"]) (Some 1);
     EvPrint "Launched mpv for display 1 with 3 videos";
     EvTerminate 0; EvWait 0; EvWait 1; EvRmtree dir_demo].
Proof. by vm_compute. Qed.

(** The same run with a second player that ignores SIGTERM and never
    exits, and a Ctrl-C: [main] blocks in the second [proc.wait()] and never
    reaches [shutil.rmtree]. *)
Example run_blocks_on_stubborn_player :
  let r := run two_displays (env_stubborn [Exits []; Interrupt]) fs_demo in
  r.1 = Diverge /\
  procs r.2 = [Exited (-15); Running] /\
  drop 11 (trace r.2)
  = [EvPrint "Interrupted by user"; EvTerminate 0; EvTerminate 1; EvWait 0] /\
  removed (trace r.2) = [].
Proof. by vm_compute. Qed.

(** When that player quits later on its own, the wait returns then and
    [main] goes on to remove the directory. *)
Example run_waits_for_slow_player :
  let r := run two_displays (env_slow [Exits []; Interrupt]) fs_demo in
  r.1 = Ok tt /\
  procs r.2 = [Exited (-15); Exited 4] /\
  drop 11 (trace r.2)
  = [EvPrint "Interrupted by user"; EvTerminate 0; EvTerminate 1; EvWait 0; EvWait 1;
     EvRmtree dir_demo].
Proof. by vm_compute. Qed.

(** Without [notify-send] the first missing path ends the run. *)
Example run_without_notifier :
  run shipped_config (env_no_notifier ["a.mp4"; "x"; "b.mp4"] false) fs_demo
  = (Raise OSError, extend [EvRunFailed (not_found_argv "x")] (init_world fs_demo)).
Proof. by vm_compute. Qed.

(** ** Where the code departs from the specification *)


(** C2, counterexample: with two displays, a failing spawn for the first
    display ends the run before the second display is attempted; and a
    failing spawn for the second display ends the run with the exception
    although the first player was spawned (and is left running). *)
Lemma C2_spawn_failure_stops_launching :
  (exists w',
     run two_displays (env_demo false (fun i => Nat.eqb i 0) [Interrupt]) fs_demo
     = (Raise OSError, w') /\
     popen_attempts (trace w')
     = [mpv_cmd dir_demo 0%Z ["a.mp4"; "b.mp4"; "/videos"]] /\
     procs w' = []) /\
  (exists w',
     run two_displays (env_demo false (fun i => Nat.eqb i 1) [Interrupt]) fs_demo
     = (Raise OSError, w') /\
     spawned (trace w') = [0] /\
     procs w' = [Running] /\
     terminated (trace w') = []).
Proof.
  split; eexists; (split; [vm_compute; reflexivity|]);
    repeat split; vm_compute; reflexivity.
Qed.

(** C3, counterexample: a second player that ignores the termination
    request and never exits.  After Ctrl-C both players get the request,
    the wait on the first returns, the wait on the second never does: that
    handle is never reaped and the directory is never removed. *)
Lemma C3_stubborn_player_is_never_reaped :
  exists w',
    run two_displays (env_stubborn [Exits []; Interrupt]) fs_demo = (Diverge, w') /\
    spawned (trace w') = [0; 1] /\
    terminated (trace w') = [0; 1] /\
    waited (trace w') = [0] /\
    removed (trace w') = [] /\
    procs w' = [Exited (-15); Running] /\
    fs w' !! dir_demo = Some Directory.
Proof.
  eexists. split; [vm_compute; reflexivity|].
  repeat split; vm_compute; reflexivity.
Qed.

(** C4, counterexample: without [notify-send], one missing path among
    three.  The notification cannot be started, [subprocess.run] raises,
    and [parse_arguments] ends there: no notification was emitted and no
    list is returned. *)
Lemma C4_missing_notifier_aborts_resolution :
  length (missing fs_demo ["a.mp4"; "x"; "b.mp4"]) = 1 /\
  exists w',
    parse_arguments shipped_config (env_no_notifier ["a.mp4"; "x"; "b.mp4"] false)
      (init_world fs_demo)
    = (Raise OSError, w') /\
    ran (trace w') = [] /\
    trace w' = [EvRunFailed (not_found_argv "x")].
Proof.
  split; [vm_compute; reflexivity|].
  eexists. split; [vm_compute; reflexivity|].
  repeat split; vm_compute; reflexivity.
Qed.

(** C6, counterexample: no video at all and no [notify-send].  The
    resolved list is empty, the critical notification cannot be started,
    and [main] ends with the exception before it prints: nothing is
    emitted or printed and the exit status is 1. *)
Lemma C6_missing_notifier_no_clean_exit :
  (parse_arguments shipped_config (env_no_notifier [] false) (init_world fs_demo)).1
    = Ok ({| videos := []; dry_run := false |}, []) /\
  exists w',
    run shipped_config (env_no_notifier [] false) fs_demo = (Raise OSError, w') /\
    exit_status (run shipped_config (env_no_notifier [] false) fs_demo).1 = Some 1%Z /\
    ran (trace w') = [] /\
    printed (trace w') = [].
Proof.
  split; [vm_compute; reflexivity|].
  eexists. split; [vm_compute; reflexivity|].
  repeat split; vm_compute; reflexivity.
Qed.

(** C7, counterexample: no command-line videos, a fallback with one
    existing and one missing entry, and no [notify-send]: the resolution
    raises instead of returning the existing fallback entry. *)
Lemma C7_missing_notifier_no_fallback_result :
  List.filter (path_exists fs_demo) (VIDEO_PATH with_fallback) = ["a.mp4"] /\
  (parse_arguments with_fallback (env_no_notifier [] false) (init_world fs_demo)).1
    = Raise OSError.
Proof. split; vm_compute; reflexivity. Qed.

(** C10, counterexample: a directory and a missing path on the command
    line, no [notify-send].  The directory passes the existence check, but
    the notification for the missing path ends the run: no player is
    started and the directory reaches none. *)
Lemma C10_directory_not_passed_without_notifier :
  fs_demo !! "/videos" = Some Directory /\
  exists w',
    run shipped_config (env_no_notifier ["/videos"; "x"] false) fs_demo
    = (Raise OSError, w') /\
    popen_attempts (trace w') = [].
Proof.
  split; [vm_compute; reflexivity|].
  eexists. split; vm_compute; reflexivity.
Qed.

(** ** The theorems at concrete runs *)


Lemma C2_witness :
  (run two_displays (env_demo false (fun i => Nat.eqb i 1) [Interrupt]) fs_demo).1
    = Raise OSError /\
  popen_attempts
    (trace (run two_displays (env_demo false (fun i => Nat.eqb i 1) [Interrupt]) fs_demo).2)
  = [mpv_cmd dir_demo 0%Z ["a.mp4"; "b.mp4"; "/videos"];
     mpv_cmd dir_demo 1%Z ["a.mp4"; "b.mp4"; "/videos"]].
Proof.
  destruct (C2_first_spawn_failure_aborts
              two_displays (env_demo false (fun i => Nat.eqb i 1) [Interrupt])
              fs_demo dir_demo 1)
    as (w' & pre & x & Hrun & _ & _ & _ & Hattempts & _).
  - intros p _. reflexivity.
  - reflexivity.
  - vm_compute. discriminate.
  - reflexivity.
  - vm_compute. lia.
  - intros j Hj. destruct j as [|j]; [reflexivity | lia].
  - reflexivity.
  - rewrite Hrun. split; [reflexivity | exact Hattempts].
Defined.

Lemma C5_witness :
  (create_temp_config_dir (env_demo false never []) 1 (init_world fs_demo)).1
    = Ok dir_demo /\
  PyStr.lines (adjust_mpv_conf 1) !! 2 = Some "loop=inf".
Proof.
  destruct (C5_loop_directive_by_count
              (env_demo false never []) 1 (init_world fs_demo) dir_demo)
    as (w' & Hrun & _ & _ & _ & _ & _ & _ & Hline & _).
  - reflexivity.
  - rewrite Hrun. split; [reflexivity | exact Hline].
Defined.

Lemma C6_witness :
  (run shipped_config env_nothing ∅).1 = Ok tt /\
  length (trace (run shipped_config env_nothing ∅).2) = 5.
Proof.
  destruct (C6_no_videos_clean_exit shipped_config env_nothing ∅) as [Hsent _].
  - intros p _. reflexivity.
  - reflexivity.
  - destruct Hsent as (w' & Hrun & _ & Htrace & _); [reflexivity|].
    rewrite Hrun. split; [reflexivity|]. cbn [snd]. rewrite Htrace. reflexivity.
Defined.

Lemma C7_witness :
  (parse_arguments with_fallback env_no_args (init_world fs_demo)).1
    = Ok (cli env_no_args, ["a.mp4"]) /\
  (parse_arguments with_fallback (env_demo false never []) (init_world fs_demo)).1
    = Ok (cli (env_demo false never []), ["a.mp4"; "b.mp4"; "/videos"]).
Proof.
  split.
  - destruct (proj1 (C7_fallback_only_without_candidates
                       with_fallback env_no_args (init_world fs_demo)))
      as [_ H]; [reflexivity|].
    rewrite H; [reflexivity|]. intros p _. reflexivity.
  - destruct (proj2 (C7_fallback_only_without_candidates
                       with_fallback (env_demo false never []) (init_world fs_demo)))
      as (_ & H & _); [discriminate|].
    rewrite H; [reflexivity|]. intros p _. reflexivity.
Defined.



(** * The rest of the behaviour of [main] *)

(** ** Teardown in general *)

Lemma child_exit_other ps c h :
  c.1 <> h -> is_running (child_exit ps c) h = is_running ps h.
Proof.
  intros Hne. unfold is_running, poll_state, child_exit.
  destruct (ps !! c.1) as [[|rc]|]; try done. by rewrite list_lookup_insert_ne.
Qed.

Lemma child_exit_exited ps c : is_running ps c.1 = false -> child_exit ps c = ps.
Proof.
  unfold is_running, poll_state, child_exit. by destruct (ps !! c.1) as [[|rc]|].
Qed.

Lemma late_exit_exited env ps h : is_running ps h = false -> late_exit env ps h = ps.
Proof.
  intros H. unfold late_exit. destruct (exits_later env h); [|done].
  by apply (child_exit_exited ps (h, z)).
Qed.

Lemma late_exit_length env ps h : length (late_exit env ps h) = length ps.
Proof. unfold late_exit. destruct (exits_later env h); [apply child_exit_length | done]. Qed.

Lemma late_exit_keeps env ps h h' :
  is_running ps h' = false -> is_running (late_exit env ps h) h' = false.
Proof.
  intros H. unfold late_exit. destruct (exits_later env h); [by apply child_exit_keeps | done].
Qed.

Lemma foldl_late_exit_length env hs : forall ps,
  length (foldl (late_exit env) ps hs) = length ps.
Proof.
  induction hs as [|h hs IH]; intros ps; [done|]. cbn [foldl].
  by rewrite IH, late_exit_length.
Qed.

Lemma foldl_late_exit_keeps env hs : forall ps h,
  is_running ps h = false -> is_running (foldl (late_exit env) ps hs) h = false.
Proof.
  induction hs as [|h' hs IH]; intros ps h H; [done|]. cbn [foldl].
  by apply IH, late_exit_keeps.
Qed.

Lemma foldl_late_exit_done env hs : forall ps h,
  In h hs -> h < length ps -> exits_later env h <> None ->
  is_running (foldl (late_exit env) ps hs) h = false.
Proof.
  induction hs as [|h' hs IH]; intros ps h Hin Hlt Hlater; [done|]. cbn [foldl].
  destruct Hin as [->|Hin].
  - apply foldl_late_exit_keeps. unfold late_exit.
    destruct (exits_later env h) as [rc|]; [|done].
    by apply (child_exit_exits ps (h, rc)).
  - apply IH; [done| by rewrite late_exit_length | done].
Qed.

Lemma stuck_late_exit env ps h h' :
  stuck env (late_exit env ps h) h' = stuck env ps h'.
Proof.
  unfold stuck, late_exit. destruct (exits_later env h) as [rc|] eqn:E; [|done].
  destruct (decide (h = h')) as [<-|Hne].
  - by rewrite E, !andb_false_r.
  - by rewrite (child_exit_other ps (h, rc)).
Qed.

Lemma wait_outcome_late_exit env ps h hs :
  wait_outcome env (late_exit env ps h) hs = wait_outcome env ps hs.
Proof.
  induction hs as [|h' hs IH]; [done|]. cbn [wait_outcome].
  by rewrite stuck_late_exit, IH.
Qed.

Lemma wait_pass_general env hs : forall w,
  for_each hs (fun proc => wait env proc ;; ret tt) w
  = (if (wait_outcome env (procs w) hs).1 then Ok tt else Diverge,
     {| fs := fs w;
        procs := foldl (late_exit env) (procs w) (wait_outcome env (procs w) hs).2;
        trace := trace w ++ map EvWait (wait_outcome env (procs w) hs).2 |}).
Proof.
  unfold for_each. induction hs as [|h hs IH]; intros w.
  - cbn. unfold ret. rewrite app_nil_r. by destruct w.
  - rewrite for_fold_cons. unfold bind at 1, wait at 1. cbn [wait_outcome].
    unfold stuck. unfold is_running at 1 2 3.
    destruct (poll_state (procs w) h) as [rc|] eqn:Hp; cbn [andb].
    + unfold ret at 1. rewrite IH. cbn [fst snd map foldl procs fs trace log].
      rewrite late_exit_exited by (unfold is_running; by rewrite Hp).
      by rewrite <- app_assoc.
    + destruct (exits_later env h) as [rc|] eqn:Hlater.
      * unfold ret at 1. rewrite IH. cbn [fst snd map foldl procs fs trace log with_procs].
        replace (child_exit (procs w) (h, rc)) with (late_exit env (procs w) h)
          by (unfold late_exit; by rewrite Hlater).
        rewrite wait_outcome_late_exit. by rewrite <- app_assoc.
      * cbn. rewrite app_nil_r. by destruct w.
Qed.

Lemma wait_outcome_through env ps hs :
  (wait_outcome env ps hs).1 = true -> (wait_outcome env ps hs).2 = hs.
Proof.
  induction hs as [|h hs IH]; [done|]. cbn [wait_outcome].
  destruct (stuck env ps h); [done|]. cbn [fst snd]. intros H. by rewrite IH.
Qed.

Lemma wait_outcome_prefix env ps hs :
  exists k, (wait_outcome env ps hs).2 = take k hs.
Proof.
  induction hs as [|h hs [k IH]]; [by exists 0|]. cbn [wait_outcome].
  destruct (stuck env ps h).
  - by exists 0.
  - exists (S k). cbn [snd take]. by rewrite IH.
Qed.

Lemma wait_outcome_through_iff env ps hs :
  (wait_outcome env ps hs).1 = true <-> forall h, In h hs -> stuck env ps h = false.
Proof.
  induction hs as [|h hs IH]; cbn [wait_outcome].
  - split; [intros _ h [] | done].
  - destruct (stuck env ps h) eqn:Hs; cbn [fst].
    + split; [done|]. intros H. specialize (H h (or_introl eq_refl)). congruence.
    + rewrite IH. split.
      * intros H h' [<-|Hin]; [done | by apply H].
      * intros H h' Hin. apply H. by right.
Qed.

Lemma wait_outcome_stuck env ps hs :
  (wait_outcome env ps hs).1 = false -> exists h, In h hs /\ stuck env ps h = true.
Proof.
  induction hs as [|h hs IH]; cbn [wait_outcome]; [done|].
  destruct (stuck env ps h) eqn:E.
  - intros _. exists h. split; [by left | done].
  - cbn [fst]. intros H. destruct (IH H) as (h' & Hin & Hs).
    exists h'. split; [by right | done].
Qed.

Lemma wait_outcome_all_exited env ps hs :
  Forall (fun h => is_running ps h = false) hs -> (wait_outcome env ps hs).1 = true.
Proof.
  intros H. apply wait_outcome_through_iff. intros h Hin.
  rewrite Forall_forall in H. unfold stuck. by rewrite H by (by apply list_elem_of_In).
Qed.

Lemma wait_outcome_blocked env ps hs h :
  In h hs -> stuck env ps h = true -> (wait_outcome env ps hs).1 = false.
Proof.
  intros Hin Hs. destruct (wait_outcome env ps hs).1 eqn:E; [|done].
  rewrite wait_outcome_through_iff in E. by rewrite E in Hs.
Qed.

Lemma foldl_late_exit_all_exited env hs : forall ps,
  Forall (fun h => is_running ps h = false) hs -> foldl (late_exit env) ps hs = ps.
Proof.
  induction hs as [|h hs IH]; intros ps H; [done|]. cbn [foldl].
  apply Forall_cons in H as [Hh H]. rewrite late_exit_exited by done. by apply IH.
Qed.

Lemma teardown_general env hs w :
  NoDup hs ->
  teardown env hs w
  = (if (wait_outcome env (foldl (signal_term env) (procs w) hs) hs).1
     then Ok tt else Diverge,
     {| fs := fs w;
        procs := foldl (late_exit env) (foldl (signal_term env) (procs w) hs)
                   (wait_outcome env (foldl (signal_term env) (procs w) hs) hs).2;
        trace := trace w ++ map EvTerminate (List.filter (is_running (procs w)) hs)
                         ++ map EvWait
                              (wait_outcome env (foldl (signal_term env) (procs w) hs) hs).2 |}).
Proof.
  intros Hnd. unfold teardown. unfold bind at 1.
  rewrite (terminate_pass_spec env) by done. rewrite wait_pass_general.
  cbn [fs procs trace].
  rewrite <- app_assoc.
  by destruct (wait_outcome _ _ _).1.
Qed.

(** ** The launch loop in general *)

Lemma find_seq_first (f : nat -> bool) n : forall a,
  match List.find f (seq a n) with
  | Some k => a <= k < a + n /\ f k = true /\ forall j, a <= j < k -> f j = false
  | None => forall j, a <= j < a + n -> f j = false
  end.
Proof.
  induction n as [|n IH]; intros a; cbn [seq List.find].
  - intros j Hj. lia.
  - destruct (f a) eqn:Hfa.
    + split; [lia|]. split; [done|]. intros j Hj. lia.
    + specialize (IH (S a)). destruct (List.find f (seq (S a) n)) as [k|].
      * destruct IH as (Hk & Hfk & Hbefore). split; [lia|]. split; [done|].
        intros j Hj. destruct (decide (j = a)) as [->|Hne]; [done|].
        apply Hbefore. lia.
      * intros j Hj. destruct (decide (j = a)) as [->|Hne]; [done|].
        apply IH. lia.
Qed.

Lemma first_failure_cases env n :
  match first_failure env n with
  | Some k => k < n /\ popen_fails env k = true /\
              forall j, j < k -> popen_fails env j = false
  | None => forall j, j < n -> popen_fails env j = false
  end.
Proof.
  unfold first_failure. pose proof (find_seq_first (popen_fails env) n 0) as H.
  destruct (List.find _ _) as [k|].
  - destruct H as (Hk & Hf & Hb). split; [lia|]. split; [done|].
    intros j Hj. apply Hb. lia.
  - intros j Hj. apply H. lia.
Qed.

Lemma coordinate_general cfg env args dir vl w :
  dry_run args = false ->
  procs w = [] ->
  is_Some (fs w !! dir) ->
  DISPLAYS cfg <> [] ->
  (forall j, j < length (DISPLAYS cfg) -> popen_fails env j = false) ->
  let hs := seq 0 (length (DISPLAYS cfg)) in
  coordinate cfg env args dir vl w
  = match (loop_end cfg env).1 with
    | Diverge =>
        (Diverge, {| fs := fs w; procs := (loop_end cfg env).2;
                     trace := trace w ++ launched_events dir vl 0 (DISPLAYS cfg) |})
    | r =>
        if (wait_outcome env (torn_down cfg env) hs).1
        then (Ok tt,
              {| fs := without_tree dir (fs w);
                 procs := waited_down cfg env;
                 trace := trace w ++ launched_events dir vl 0 (DISPLAYS cfg)
                            ++ interrupt_note r
                            ++ map EvTerminate (still_running cfg env)
                            ++ map EvWait hs
                            ++ [EvRmtree dir] |})
        else (Diverge,
              {| fs := fs w;
                 procs := waited_down cfg env;
                 trace := trace w ++ launched_events dir vl 0 (DISPLAYS cfg)
                            ++ interrupt_note r
                            ++ map EvTerminate (still_running cfg env)
                            ++ map EvWait (reaped cfg env) |})
    end.
Proof.
  intros Hdry Hprocs Hdir Hne Hok hs. subst hs.
  unfold coordinate, enumerate. unfold bind at 1.
  rewrite launch_ok; [|done|intros j Hj; apply Hok; lia].
  rewrite Hprocs. cbn [length app].
  assert (Hhs : seq 0 (length (DISPLAYS cfg)) <> []).
  { by destruct (DISPLAYS cfg). }
  unfold bind at 1. rewrite (match_nonempty (seq 0 (length (DISPLAYS cfg)))) by done.
  unfold try_finally, try_except.
  rewrite monitor_spec. cbn [procs]. fold (loop_end cfg env).
  destruct (monitor_outcome_cases (seq 0 (length (DISPLAYS cfg))) (script env)
              (replicate (length (DISPLAYS cfg)) Running)) as [Hr|[Hr|Hr]];
    fold (loop_end cfg env) in Hr; rewrite Hr; cbn [monitor_handlers interrupt_note].
  - unfold ret at 1. rewrite teardown_general by apply NoDup_seq.
    cbn [procs with_procs fs trace]. fold (torn_down cfg env).
    fold (still_running cfg env). fold (reaped cfg env). fold (waited_down cfg env).
    pose proof (wait_outcome_through env (torn_down cfg env)
                  (seq 0 (length (DISPLAYS cfg)))) as Hthrough.
    fold (reaped cfg env) in Hthrough.
    destruct (wait_outcome env (torn_down cfg env) (seq 0 (length (DISPLAYS cfg)))).1.
    + rewrite Hthrough by done. rewrite rmtree_spec by done.
      cbn [fs procs trace]. by rewrite <- !app_assoc.
    + cbn [app]. by rewrite <- !app_assoc.
  - unfold print at 1. rewrite teardown_general by apply NoDup_seq.
    cbn [procs with_procs fs trace log]. fold (torn_down cfg env).
    fold (still_running cfg env). fold (reaped cfg env). fold (waited_down cfg env).
    pose proof (wait_outcome_through env (torn_down cfg env)
                  (seq 0 (length (DISPLAYS cfg)))) as Hthrough.
    fold (reaped cfg env) in Hthrough.
    destruct (wait_outcome env (torn_down cfg env) (seq 0 (length (DISPLAYS cfg)))).1.
    + rewrite Hthrough by done. rewrite rmtree_spec by done.
      cbn [fs procs trace]. by rewrite <- !app_assoc.
    + by rewrite <- !app_assoc.
  - reflexivity.
Qed.

(** ** Every run has one of the ten shapes *)

Lemma run_shape_total cfg env fs0 r w' :
  run cfg env fs0 = (r, w') -> run_shape cfg env fs0 r w'.
Proof.
  intros Hrun.
  destruct (notify_each env (take 3 (missing fs0 (working_list cfg (cli env))))).2
    eqn:Hnotes.
  2:{ unfold run in Hrun. rewrite main_resolution_fails in Hrun by done.
      injection Hrun as <- <-. by apply ResolutionFailed. }
  apply notifier_works_iff in Hnotes. rename Hnotes into Hworks.
  destruct (existing fs0 (working_list cfg (cli env))) as [|v vl'] eqn:Hvl.
  { unfold run in Hrun.
    destruct (run_fails env (notification_argv "No videos to play" true)) eqn:Hcrit.
    - rewrite main_no_videos_unnotified in Hrun by done.
      injection Hrun as <- <-. by apply NoVideosUnnotified.
    - rewrite main_no_videos in Hrun by done.
      injection Hrun as <- <-. by apply NoVideos. }
  assert (Hne : existing fs0 (working_list cfg (cli env)) <> []) by (by rewrite Hvl).
  destruct (mkdtemp_pick (gettempdir env) "mpvconfig_" (tmp_names env) fs0)
    as [dir|] eqn:Hdir.
  2:{ unfold run in Hrun.
      rewrite (main_with_videos cfg env (init_world fs0) v vl') in Hrun by done.
      cbn [fs init_world] in Hrun. rewrite Hdir in Hrun.
      injection Hrun as <- <-. by apply NoFreeName. }
  destruct (dry_run (cli env)) eqn:Hdry.
  { rewrite (run_dry cfg env fs0 dir) in Hrun by done.
    injection Hrun as <- <-. by apply DryRun. }
  pose proof (first_failure_cases env (length (DISPLAYS cfg))) as Hff.
  destruct (first_failure env (length (DISPLAYS cfg))) as [k|].
  { destruct Hff as (Hk & Hfail & Hbefore).
    destruct (lookup_lt_is_Some_2 (DISPLAYS cfg) k Hk) as [x Hx].
    rewrite (run_spawn_fails cfg env fs0 dir k x) in Hrun by done.
    injection Hrun as <- <-. by apply SpawnFailed. }
  rewrite (run_with_videos cfg env fs0 dir) in Hrun by done.
  destruct (decide (DISPLAYS cfg = [])) as [HD|HD].
  { rewrite coordinate_no_displays in Hrun; [|done|done|apply announced_has_dir].
    injection Hrun as <- <-. by apply NoDisplays. }
  rewrite coordinate_general in Hrun; [|done|done|apply announced_has_dir|done|done].
  destruct (loop_end cfg env).1 as [[]|e|] eqn:Hloop.
  - destruct (wait_outcome _ _ _).1 eqn:Hwait; injection Hrun as <- <-.
    + pose proof (Completed cfg env fs0 dir Hworks Hne Hdir Hdry HD Hff) as H.
      rewrite Hloop in H. apply H; done.
    + pose proof (BlockedInWait cfg env fs0 dir Hworks Hne Hdir Hdry HD Hff) as H.
      rewrite Hloop in H. apply H; done.
  - destruct (wait_outcome _ _ _).1 eqn:Hwait; injection Hrun as <- <-.
    + pose proof (Completed cfg env fs0 dir Hworks Hne Hdir Hdry HD Hff) as H.
      rewrite Hloop in H. apply H; done.
    + pose proof (BlockedInWait cfg env fs0 dir Hworks Hne Hdir Hdry HD Hff) as H.
      rewrite Hloop in H. apply H; done.
  - injection Hrun as <- <-. by apply LoopsForever.
Qed.

(** ** Projections of the general pieces *)

Lemma flat_map_interrupt_note_nil {C} (f : event -> list C) r :
  (forall line, f (EvPrint line) = []) -> flat_map f (interrupt_note r) = [].
Proof. intros Hl. destruct r as [|[]|]; cbn; by rewrite ?Hl. Qed.

Lemma flat_map_spawned_launched d vl ds h :
  flat_map (fun e => match e with EvPopen _ (Some h) => [h] | _ => [] end)
    (launched_events d vl h ds) = seq h (length ds).
Proof. apply spawned_launched. Qed.

Lemma flat_map_attempts_launched d vl ds h :
  flat_map (fun e => match e with EvPopen cmd _ => [cmd] | _ => [] end)
    (launched_events d vl h ds) = map (fun display => mpv_cmd d display vl) ds.
Proof. apply popen_attempts_launched. Qed.

Lemma flat_map_notify_each_nil {C} (f : event -> list C) env l :
  (forall argv, f (EvRun argv) = []) ->
  (forall argv, f (EvRunFailed argv) = []) ->
  flat_map f (notify_each env l).1 = [].
Proof.
  intros Hrun Hfailed. induction l as [|p l IH]; [done|]. cbn [notify_each].
  destruct (run_fails env (not_found_argv p)); cbn [fst flat_map].
  - by rewrite Hfailed.
  - unfold not_found_event, notification_event. by rewrite Hrun, IH.
Qed.

(** Splits a projection of a run's trace into the projections of its
    pieces and evaluates those that are known. *)
Ltac project_trace :=
  cbn [trace extend init_world app];
  rewrite ?announced_trace;
  unfold created, removed, spawned, terminated, waited, popen_attempts, printed,
    written, ran, run_calls in *;
  rewrite ?flat_map_app;
  rewrite ?flat_map_spawned_launched, ?flat_map_attempts_launched;
  project_pieces;
  repeat match goal with
  | |- context [flat_map ?f (interrupt_note ?r)] =>
      rewrite (flat_map_interrupt_note_nil f r) by done
  | |- context [flat_map ?f (notify_each ?env ?l).1] =>
      rewrite (flat_map_notify_each_nil f env l) by done
  end;
  cbn [flat_map app].

Lemma append_self_nil d s : d +:+ s = d -> s = "".
Proof.
  induction d as [|a d IH]; [done|]. rewrite append_cons. intros H.
  injection H as H. by apply IH.
Qed.

Lemma path_join_ne dir name : path_join dir name <> dir.
Proof. unfold path_join. intros H. by apply append_self_nil in H. Qed.

Lemma announced_dir cfg env dir vl w :
  fs (announced cfg env dir vl w) !! dir = Some Directory.
Proof.
  unfold announced, materialized, extend. cbn [fs].
  rewrite !lookup_insert_ne by apply path_join_ne. apply lookup_insert_eq.
Qed.

Lemma announced_documents cfg env dir vl w :
  fs (announced cfg env dir vl w) !! path_join dir "mpv.conf"
    = Some (RegularFile (adjust_mpv_conf (Z.of_nat (length vl)))) /\
  fs (announced cfg env dir vl w) !! path_join dir "input.conf"
    = Some (RegularFile INPUT_CONF).
Proof.
  unfold announced, materialized, extend. cbn [fs]. split.
  - rewrite lookup_insert_ne, lookup_insert_eq; [done|].
    intros H. by apply path_join_inj in H.
  - apply lookup_insert_eq.
Qed.

Lemma mkdtemp_pick_drawn dir pfx names f p :
  mkdtemp_pick dir pfx names f = Some p ->
  exists n, In n names /\ p = os_path_join dir (pfx +:+ n).
Proof.
  induction names as [|n names IH]; cbn [mkdtemp_pick]; [done|].
  destruct (f !! os_path_join dir (pfx +:+ n)) eqn:E.
  - intros H. destruct (IH H) as (m & Hin & ->). exists m. split; [by right | done].
  - intros [= <-]. exists n. split; [by left | done].
Qed.

Lemma mkdtemp_pick_none dir pfx names f :
  mkdtemp_pick dir pfx names f = None <->
  forall n, In n names -> is_Some (f !! os_path_join dir (pfx +:+ n)).
Proof.
  induction names as [|n names IH]; cbn [mkdtemp_pick].
  - split; [intros _ n [] | done].
  - destruct (f !! os_path_join dir (pfx +:+ n)) eqn:E.
    + rewrite IH. split.
      * intros H m [<-|Hin]; [by rewrite E | by apply H].
      * intros H m Hin. apply H. by right.
    + split; [done|]. intros H. specialize (H n (or_introl eq_refl)).
      rewrite E in H. by destruct H.
Qed.

(** Unfolds the local definitions a case analysis on [run_shape] leaves. *)
Ltac unfold_lets := repeat match goal with x := _ |- _ => subst x end.

(** ** What escapes [main] *)

Lemma flat_map_failed_launched d vl ds h :
  flat_map (fun e => match e with
                     | EvRunFailed _ | EvPopen _ None => [e]
                     | _ => []
                     end) (launched_events d vl h ds) = [].
Proof. revert h. induction ds as [|x ds IH]; intros h; [done|]. cbn. apply IH. Qed.

Lemma failed_calls_app l1 l2 : failed_calls (l1 ++ l2) = failed_calls l1 ++ failed_calls l2.
Proof. apply flat_map_app. Qed.

Lemma failed_calls_single e :
  failed_calls [e] = if is_failed_call e then [e] else [].
Proof. by destruct e as [| | | | |? []| | |]. Qed.

(** A run has at most one failed call; it is then the last event, and the
    run ends with its [OSError]. *)
Lemma run_failed_calls cfg env fs0 r w' :
  run_shape cfg env fs0 r w' ->
  (failed_calls (trace w') = [] /\ r <> Raise OSError) \/
  (exists pre e, trace w' = pre ++ [e] /\ failed_calls pre = [] /\
     is_failed_call e = true /\ r = Raise OSError).
Proof.
  intros Hshape.
  destruct Hshape as [Hstop| | | | |d k x| | | |]; unfold_lets.
  - right. destruct (notify_each_stopped _ _ Hstop) as (sent & p & Hev & _).
    exists (map not_found_event sent), (EvRunFailed (not_found_argv p)).
    cbn [trace extend init_world app]. rewrite Hev.
    split; [done|]. split; [|done]. unfold failed_calls. by rewrite flat_map_map_nil.
  - left. split; [|done]. unfold failed_calls. project_trace. done.
  - right. eexists _, _. cbn [trace extend init_world app].
    split; [reflexivity|]. split; [|done]. unfold failed_calls. by rewrite flat_map_map_nil.
  - left. split; [|done]. unfold failed_calls. project_trace. done.
  - left. split; [|done]. unfold failed_calls. project_trace. done.
  - right. eexists _, _. cbn [trace]. split; [by rewrite app_assoc|].
    split; [|done]. unfold failed_calls. project_trace.
    by rewrite flat_map_failed_launched.
  - left. split; [|done]. unfold failed_calls. project_trace. done.
  - left. split; [|done]. unfold failed_calls. project_trace.
    by rewrite flat_map_failed_launched.
  - left. split; [|done]. unfold failed_calls. project_trace.
    by rewrite flat_map_failed_launched.
  - left. split; [|done]. unfold failed_calls. project_trace.
    by rewrite flat_map_failed_launched.
Qed.

Lemma failed_call_is_last pre e pre' e' post :
  failed_calls pre = [] ->
  pre ++ [e] = pre' ++ e' :: post ->
  is_failed_call e' = true ->
  post = [].
Proof.
  intros Hpre Heq He'. destruct post as [|y post _] using rev_ind; [done|].
  exfalso. rewrite app_comm_cons, app_assoc in Heq.
  apply app_inj_tail in Heq as [-> _].
  rewrite failed_calls_app in Hpre. apply app_eq_nil in Hpre as [_ Hpre].
  change (e' :: post) with ([e'] ++ post) in Hpre.
  rewrite failed_calls_app, failed_calls_single, He' in Hpre. done.
Qed.

(** X1: the [StopIteration] that ends the monitoring loop never leaves
    [main].  A [subprocess.run] or [Popen] call that cannot start its
    program is the last thing a run does: nothing handles the failure, and
    [main] ends there with [OSError]. *)
Theorem X1_what_escapes_main (cfg : Config) (env : Env) (fs0 : gmap string node) :
  (run cfg env fs0).1 <> Raise StopIteration /\
  (forall pre e post,
     trace (run cfg env fs0).2 = pre ++ e :: post ->
     is_failed_call e = true ->
     post = [] /\ (run cfg env fs0).1 = Raise OSError).
Proof.
  destruct (run cfg env fs0) as [r w'] eqn:Hrun. cbn [fst snd].
  pose proof (run_shape_total cfg env fs0 r w' Hrun) as Hshape.
  split; [by destruct Hshape|].
  destruct (run_failed_calls cfg env fs0 r w' Hshape)
    as [[Hnone Hr]|(pre0 & e0 & Htr & Hpre0 & He0 & ->)].
  - intros pre e post Htr He. exfalso.
    rewrite Htr, failed_calls_app in Hnone. apply app_eq_nil in Hnone as [_ Hnone].
    change (e :: post) with ([e] ++ post) in Hnone.
    rewrite failed_calls_app, failed_calls_single, He in Hnone. done.
  - intros pre e post Htr' He. split; [|done].
    rewrite Htr in Htr'. by eapply failed_call_is_last.
Qed.

(** ** The filesystem *)

Lemma created_after_announced cfg env dir vl fs0 rest :
  created (trace (announced cfg env dir vl (init_world fs0)) ++ rest)
  = dir :: created rest.
Proof.
  unfold created. rewrite flat_map_app.
  fold (created (trace (announced cfg env dir vl (init_world fs0)))).
  by rewrite created_announced.
Qed.

(** X2: whatever way a run ends, a path that lies outside the
    directory the run created names the same thing afterwards as before:
    [main] writes and deletes nowhere else. *)
Theorem X2_paths_outside_the_directory_untouched (cfg : Config) (env : Env)
    (fs0 : gmap string node) (path : string) :
  (forall d, In d (created (trace (run cfg env fs0).2)) -> in_tree d path = false) ->
  fs (run cfg env fs0).2 !! path = fs0 !! path.
Proof.
  destruct (run cfg env fs0) as [r w'] eqn:Hrun. cbn [snd].
  pose proof (run_shape_total cfg env fs0 r w' Hrun) as Hshape.
  intros Hout.
  destruct Hshape; unfold_lets; cbn [fs trace extend init_world] in *; try done;
    rewrite created_after_announced in Hout;
    specialize (Hout dir (or_introl eq_refl));
    rewrite ?without_tree_kept by done; by apply announced_outside.
Qed.

(** X3: in every run [main] creates at most one directory; when it does,
    the directory is [os.path.join(gettempdir(), "mpvconfig_" + name)] for
    one of the drawn names and did not exist before.  The only documents written are
    [mpv.conf] and [input.conf] inside that directory, and the only tree
    ever removed is that directory. *)
Theorem X3_one_fresh_directory (cfg : Config) (env : Env) (fs0 : gmap string node) :
  let tr := trace (run cfg env fs0).2 in
  (created tr = [] \/
   exists n, In n (tmp_names env) /\
     created tr = [os_path_join (gettempdir env) ("mpvconfig_" +:+ n)] /\
     fs0 !! os_path_join (gettempdir env) ("mpvconfig_" +:+ n) = None) /\
  (removed tr = [] \/ removed tr = created tr) /\
  (forall p c, In (p, c) (written tr) ->
     exists d, created tr = [d] /\
       (p = path_join d "mpv.conf" \/ p = path_join d "input.conf")).
Proof.
  destruct (run cfg env fs0) as [r w'] eqn:Hrun. cbn [snd]. cbn zeta.
  pose proof (run_shape_total cfg env fs0 r w' Hrun) as Hshape.
  assert (Hname : forall dir,
    mkdtemp_pick (gettempdir env) "mpvconfig_" (tmp_names env) fs0 = Some dir ->
    exists n, In n (tmp_names env) /\
      [dir] = [os_path_join (gettempdir env) ("mpvconfig_" +:+ n)] /\
      fs0 !! os_path_join (gettempdir env) ("mpvconfig_" +:+ n) = None).
  { intros dir Hdir. destruct (mkdtemp_pick_drawn _ _ _ _ _ Hdir) as (n & Hin & Hn).
    exists n. split; [done|]. rewrite <- Hn. split; [done|].
    by eapply mkdtemp_pick_fresh. }
  destruct Hshape; unfold_lets; project_trace;
    (split; [first [by left | right; by apply Hname] |]);
    (split; [first [by left | by right] |]);
    intros p c Hin; cbn in Hin; try done;
    exists dir; (split; [done|]);
    destruct Hin as [[= <- <-]|[[= <- <-]|[]]]; tauto.
Qed.

Lemma NoDup_list_filter {A} (f : A -> bool) l : NoDup l -> NoDup (List.filter f l).
Proof.
  induction 1 as [|x l Hx Hl IH]; cbn [List.filter]; [constructor|].
  destruct (f x); [|done]. constructor; [|done].
  rewrite list_elem_of_In, filter_In. rewrite list_elem_of_In in Hx. tauto.
Qed.

(** X4: in every run the handles [main] holds are those of the children it
    spawned, numbered in launch order; a termination request or a wait only
    ever goes to one of them, no child gets two termination requests or two
    waits, and the waits go through the children in launch order. *)
Theorem X4_only_own_children_signalled_and_waited (cfg : Config) (env : Env)
    (fs0 : gmap string node) :
  let tr := trace (run cfg env fs0).2 in
  spawned tr = seq 0 (length (procs (run cfg env fs0).2)) /\
  (forall h, In h (terminated tr) -> In h (spawned tr)) /\
  (exists k, waited tr = take k (spawned tr)) /\
  NoDup (terminated tr) /\
  NoDup (waited tr).
Proof.
  destruct (run cfg env fs0) as [r w'] eqn:Hrun. cbn [snd]. cbn zeta.
  pose proof (run_shape_total cfg env fs0 r w' Hrun) as Hshape.
  assert (Hlen : length (loop_end cfg env).2 = length (DISPLAYS cfg)).
  { unfold loop_end. by rewrite monitor_outcome_length, length_replicate. }
  assert (Hlen' : length (waited_down cfg env) = length (DISPLAYS cfg)).
  { unfold waited_down, torn_down.
    by rewrite foldl_late_exit_length, foldl_signal_term_length. }
  assert (Hstill : forall h, In h (still_running cfg env) ->
                     In h (seq 0 (length (DISPLAYS cfg)))).
  { intros h Hin. unfold still_running in Hin. apply filter_In in Hin. tauto. }
  assert (Hnd : NoDup (still_running cfg env)).
  { unfold still_running. apply NoDup_list_filter, NoDup_seq. }
  destruct Hshape; unfold_lets; project_trace; cbn [procs length];
    rewrite ?app_nil_r, ?Hlen, ?Hlen', ?length_replicate.
  - repeat split; try done; [by exists 0 | constructor | constructor].
  - repeat split; try done; [by exists 0 | constructor | constructor].
  - repeat split; try done; [by exists 0 | constructor | constructor].
  - repeat split; try done; [by exists 0 | constructor | constructor].
  - repeat split; try done; [by exists 0 | constructor | constructor].
  - rewrite length_take. assert (Hk : k < length (DISPLAYS cfg)) by (by eapply lookup_lt_Some).
    replace (k `min` length (DISPLAYS cfg)) with k by lia.
    repeat split; try done; [by exists 0 | constructor | constructor].
  - repeat split; try done; [by exists 0 | constructor | constructor].
  - repeat split; try done; [by exists 0 | constructor | constructor].
  - split; [done|]. split; [done|].
    destruct (wait_outcome_prefix env (torn_down cfg env) (seq 0 (length (DISPLAYS cfg))))
      as [k Hk].
    unfold reaped. rewrite Hk. split; [by exists k|]. split; [done|].
    eapply sublist_NoDup; [apply NoDup_seq | apply sublist_take].
  - split; [done|]. split; [done|].
    split; [exists (length (DISPLAYS cfg)); by rewrite firstn_all2 by (rewrite length_seq; lia)|].
    split; [done | apply NoDup_seq].
Qed.

(** X5: a run that returns normally leaves the filesystem exactly as it
    found it, provided nothing that existed before lies inside the tree of
    the directory the run created (which is the case whenever every entry
    has its parent directory, the directory being new). *)
Theorem X5_completed_run_restores_filesystem (cfg : Config) (env : Env)
    (fs0 : gmap string node) :
  (run cfg env fs0).1 = Ok tt ->
  (forall d path, In d (created (trace (run cfg env fs0).2)) ->
     is_Some (fs0 !! path) -> in_tree d path = false) ->
  fs (run cfg env fs0).2 = fs0.
Proof.
  destruct (run cfg env fs0) as [r w'] eqn:Hrun. cbn [fst snd].
  pose proof (run_shape_total cfg env fs0 r w' Hrun) as Hshape.
  intros Hok Hclean.
  destruct Hshape; unfold_lets; try discriminate;
    cbn [fs trace extend init_world] in *; try done;
    rewrite created_after_announced in Hclean;
    specialize (Hclean dir);
    apply map_eq; intros path;
    (destruct (in_tree dir path) eqn:Hin;
     [ rewrite without_tree_gone by done;
       destruct (fs0 !! path) eqn:E; [|done];
       rewrite (Hclean path) in Hin by (by left || by rewrite E); done
     | rewrite without_tree_kept by done; by apply announced_outside ]).
Qed.

(** ** When and how the monitoring loop ends *)

Lemma some_exited_all_running n hs : some_exited (replicate n Running) hs = false.
Proof.
  unfold some_exited. induction hs as [|h hs IH]; [done|]. cbn [existsb].
  rewrite IH, orb_false_r. unfold is_running, poll_state.
  destruct (replicate n Running !! h) as [st|] eqn:E; [|done].
  apply lookup_replicate in E as [-> _]. done.
Qed.

Lemma child_exit_stranger ps c : length ps <= c.1 -> child_exit ps c = ps.
Proof.
  intros Hge. unfold child_exit. by rewrite (lookup_ge_None_2 ps c.1).
Qed.

Lemma foldl_child_exit_strangers cs : forall ps,
  existsb (fun c => Nat.ltb c.1 (length ps)) cs = false ->
  foldl child_exit ps cs = ps.
Proof.
  induction cs as [|c cs IH]; intros ps H; [done|]. cbn [existsb foldl] in *.
  apply orb_false_iff in H as [Hc Hcs]. apply Nat.ltb_ge in Hc.
  rewrite child_exit_stranger by done. by apply IH.
Qed.

(** Ticks in which no launched child exits and no Ctrl-C arrives change
    nothing. *)
Lemma monitor_outcome_quiet n quiet rest :
  ends_loop n quiet = false ->
  monitor_outcome (seq 0 n) (quiet ++ rest) (replicate n Running)
  = monitor_outcome (seq 0 n) rest (replicate n Running).
Proof.
  induction quiet as [|t quiet IH]; [done|]. cbn [ends_loop existsb]. intros H.
  apply orb_false_iff in H as [Ht Hquiet].
  cbn [app monitor_outcome]. rewrite some_exited_all_running.
  destruct t as [children|]; [|done].
  rewrite foldl_child_exit_strangers by (by rewrite length_replicate).
  rewrite (IH Hquiet).
  destruct rest as [|t' rest']; cbn [monitor_outcome];
    by rewrite some_exited_all_running.
Qed.

Lemma monitor_outcome_forever n ticks :
  ends_loop n ticks = false ->
  monitor_outcome (seq 0 n) ticks (replicate n Running) = (Diverge, replicate n Running).
Proof.
  intros H. rewrite <- (app_nil_r ticks), monitor_outcome_quiet by done.
  cbn [monitor_outcome]. by rewrite some_exited_all_running.
Qed.

Lemma monitor_outcome_interrupt n quiet rest :
  ends_loop n quiet = false ->
  monitor_outcome (seq 0 n) (quiet ++ Interrupt :: rest) (replicate n Running)
  = (Raise KeyboardInterrupt, replicate n Running).
Proof.
  intros H. rewrite monitor_outcome_quiet by done.
  cbn [monitor_outcome]. by rewrite some_exited_all_running.
Qed.

Lemma monitor_outcome_first_exit n quiet children rest :
  ends_loop n quiet = false ->
  existsb (fun c => Nat.ltb c.1 n) children = true ->
  monitor_outcome (seq 0 n) (quiet ++ Exits children :: rest) (replicate n Running)
  = (Raise StopIteration, foldl child_exit (replicate n Running) children).
Proof.
  intros H Hex. rewrite monitor_outcome_quiet by done.
  cbn [monitor_outcome]. rewrite some_exited_all_running.
  apply existsb_exists in Hex as (c & Hin & Hc). apply Nat.ltb_lt in Hc.
  assert (Hse : some_exited (foldl child_exit (replicate n Running) children) (seq 0 n)
                = true).
  { apply (some_exited_seq _ n c.1); [done|].
    apply foldl_child_exit_exits; [done | by rewrite length_replicate]. }
  destruct rest as [|t rest']; cbn [monitor_outcome]; by rewrite Hse.
Qed.

(** X8: the monitoring loop has no timeout.  Started on [n] running
    children it ends only by [StopIteration] or [KeyboardInterrupt], and it
    ends at all exactly when, during some sleep, one of these children
    exits or the user interrupts; it changes neither the filesystem nor the
    trace. *)
Theorem X8_monitoring_loop_ends_iff (n : nat) (ticks : list tick) (w : World) :
  procs w = replicate n Running ->
  ((monitor (seq 0 n) ticks w).1 = Diverge <-> ends_loop n ticks = false) /\
  ((monitor (seq 0 n) ticks w).1 = Diverge \/
   (monitor (seq 0 n) ticks w).1 = Raise StopIteration \/
   (monitor (seq 0 n) ticks w).1 = Raise KeyboardInterrupt) /\
  fs (monitor (seq 0 n) ticks w).2 = fs w /\
  trace (monitor (seq 0 n) ticks w).2 = trace w.
Proof.
  intros Hprocs. rewrite monitor_spec, Hprocs. cbn [fst snd with_procs fs trace].
  split; [|split; [|done]].
  - split.
    + intros Hdiv. destruct (ends_loop n ticks) eqn:Hends; [|done].
      exfalso. revert Hdiv. apply monitor_outcome_ends; [apply length_replicate | done].
    + intros Hends. by rewrite monitor_outcome_forever.
  - destruct (monitor_outcome_cases (seq 0 n) ticks (replicate n Running))
      as [H|[H|H]]; tauto.
Qed.

(** ** Runs in which every display got its player *)

Lemma run_launched cfg env fs0 dir :
  notifier_works cfg env fs0 ->
  dry_run (cli env) = false ->
  existing fs0 (working_list cfg (cli env)) <> [] ->
  mkdtemp_pick (gettempdir env) "mpvconfig_" (tmp_names env) fs0 = Some dir ->
  DISPLAYS cfg <> [] ->
  (forall j, j < length (DISPLAYS cfg) -> popen_fails env j = false) ->
  let vl := existing fs0 (working_list cfg (cli env)) in
  let w0 := announced cfg env dir vl (init_world fs0) in
  let hs := seq 0 (length (DISPLAYS cfg)) in
  run cfg env fs0
  = match (loop_end cfg env).1 with
    | Diverge =>
        (Diverge, {| fs := fs w0; procs := (loop_end cfg env).2;
                     trace := trace w0 ++ launched_events dir vl 0 (DISPLAYS cfg) |})
    | r =>
        if (wait_outcome env (torn_down cfg env) hs).1
        then (Ok tt,
              {| fs := without_tree dir (fs w0);
                 procs := waited_down cfg env;
                 trace := trace w0 ++ launched_events dir vl 0 (DISPLAYS cfg)
                            ++ interrupt_note r
                            ++ map EvTerminate (still_running cfg env)
                            ++ map EvWait hs
                            ++ [EvRmtree dir] |})
        else (Diverge,
              {| fs := fs w0;
                 procs := waited_down cfg env;
                 trace := trace w0 ++ launched_events dir vl 0 (DISPLAYS cfg)
                            ++ interrupt_note r
                            ++ map EvTerminate (still_running cfg env)
                            ++ map EvWait (reaped cfg env) |})
    end.
Proof.
  intros Hworks Hdry Hne Hdir HD Hok vl w0 hs.
  rewrite (run_with_videos cfg env fs0 dir) by done.
  by rewrite coordinate_general; [|done|done|apply announced_has_dir|done|done].
Qed.

Lemma loop_end_length cfg env : length (loop_end cfg env).2 = length (DISPLAYS cfg).
Proof. unfold loop_end. by rewrite monitor_outcome_length, length_replicate. Qed.

Lemma torn_down_length cfg env : length (torn_down cfg env) = length (DISPLAYS cfg).
Proof. unfold torn_down. by rewrite foldl_signal_term_length, loop_end_length. Qed.

Lemma waited_down_length cfg env : length (waited_down cfg env) = length (DISPLAYS cfg).
Proof. unfold waited_down. by rewrite foldl_late_exit_length, torn_down_length. Qed.

Lemma signal_term_lookup env ps h i :
  signal_term env ps h !! i
  = match ps !! i with
    | Some Running =>
        if bool_decide (i = h) && negb (ignores_sigterm env i)
        then Some (Exited (term_status env i)) else Some Running
    | o => o
    end.
Proof.
  unfold signal_term. destruct (decide (i = h)) as [->|Hne].
  - rewrite bool_decide_eq_true_2 by done. cbn [andb].
    destruct (ps !! h) as [[|rc]|] eqn:E; rewrite ?E; try done.
    destruct (ignores_sigterm env h); cbn [negb]; [done|].
    apply list_lookup_insert_eq. by eapply lookup_lt_Some.
  - rewrite bool_decide_eq_false_2 by done. cbn [andb].
    destruct (ps !! h) as [[|rc]|]; try by destruct (ps !! i) as [[|?]|].
    destruct (ignores_sigterm env h); [by destruct (ps !! i) as [[|?]|]|].
    rewrite list_lookup_insert_ne by done. by destruct (ps !! i) as [[|?]|].
Qed.

Lemma foldl_signal_term_lookup env hs : forall ps i,
  foldl (signal_term env) ps hs !! i
  = match ps !! i with
    | Some Running =>
        if bool_decide (i ∈ hs) && negb (ignores_sigterm env i)
        then Some (Exited (term_status env i)) else Some Running
    | o => o
    end.
Proof.
  induction hs as [|h hs IH]; intros ps i; cbn [foldl].
  - rewrite bool_decide_eq_false_2 by apply not_elem_of_nil.
    by destruct (ps !! i) as [[|?]|].
  - rewrite IH, signal_term_lookup.
    destruct (ps !! i) as [[|rc]|]; try done.
    destruct (decide (i = h)) as [->|Hne].
    + rewrite bool_decide_eq_true_2 by done.
      rewrite (bool_decide_eq_true_2 (h ∈ h :: hs)) by (apply elem_of_cons; by left).
      cbn [andb]. destruct (ignores_sigterm env h); cbn [negb]; [|done].
      by rewrite andb_false_r.
    + rewrite bool_decide_eq_false_2 by done. cbn [andb].
      destruct (decide (i ∈ hs)) as [Hin|Hnin].
      * rewrite !bool_decide_eq_true_2; [done | apply elem_of_cons; by right | done].
      * rewrite !bool_decide_eq_false_2; [done | | done].
        intros [?|?]%elem_of_cons; done.
Qed.

Lemma all_running_filter n :
  List.filter (is_running (replicate n Running)) (seq 0 n) = seq 0 n.
Proof.
  apply forallb_filter_id. apply forallb_forall. intros h Hin%in_seq.
  unfold is_running, poll_state. by rewrite lookup_replicate_2 by lia.
Qed.

Lemma torn_down_running cfg env h :
  h < length (DISPLAYS cfg) ->
  is_running (torn_down cfg env) h
  = is_running (loop_end cfg env).2 h && ignores_sigterm env h.
Proof.
  intros Hlt. unfold torn_down, is_running, poll_state.
  rewrite foldl_signal_term_lookup.
  rewrite bool_decide_eq_true_2 by (apply list_elem_of_In, in_seq; lia).
  destruct ((loop_end cfg env).2 !! h) as [[|rc]|] eqn:E; try done.
  - by destruct (ignores_sigterm env h).
  - apply lookup_ge_None in E. rewrite loop_end_length in E. lia.
Qed.

(** The waits of the [finally] block all return exactly when every player
    that is running as the monitoring loop ends exits on the termination
    request or later on its own. *)
Lemma waits_return_iff cfg env :
  (wait_outcome env (torn_down cfg env) (seq 0 (length (DISPLAYS cfg)))).1 = true <->
  forall h, h < length (DISPLAYS cfg) ->
    is_running (loop_end cfg env).2 h = true ->
    ignores_sigterm env h = false \/ exits_later env h <> None.
Proof.
  rewrite wait_outcome_through_iff. unfold stuck. split.
  - intros Hall h Hlt Hrun. specialize (Hall h).
    rewrite torn_down_running, Hrun in Hall by done.
    destruct (ignores_sigterm env h); [|by left]. right.
    destruct (exits_later env h); [done|].
    cbn in Hall. discriminate Hall. apply in_seq. lia.
  - intros Hall h Hin%in_seq. rewrite torn_down_running by lia.
    destruct (is_running (loop_end cfg env).2 h) eqn:Hrun; [|done].
    destruct (Hall h) as [->|Hlater]; [lia|done|done|].
    destruct (exits_later env h); [|done]. by rewrite andb_false_r.
Qed.

Lemma players_exit_through cfg env :
  players_exit cfg env ->
  (wait_outcome env (torn_down cfg env) (seq 0 (length (DISPLAYS cfg)))).1 = true.
Proof. intros H. apply waits_return_iff. intros h Hlt _. by apply H. Qed.

Lemma all_exited ps :
  (forall i, i < length ps -> is_running ps i = false) ->
  Forall (fun st => st <> Running) ps.
Proof.
  intros H. apply Forall_lookup. intros i st Hi ->.
  specialize (H i (lookup_lt_Some _ _ _ Hi)).
  unfold is_running, poll_state in H. by rewrite Hi in H.
Qed.

(** When the waits all return, every player has exited. *)
Lemma waited_down_all_exited cfg env :
  (wait_outcome env (torn_down cfg env) (seq 0 (length (DISPLAYS cfg)))).1 = true ->
  Forall (fun st => st <> Running) (waited_down cfg env).
Proof.
  intros Hthrough. apply all_exited. intros i Hi. rewrite waited_down_length in Hi.
  unfold waited_down, reaped. rewrite wait_outcome_through by done.
  pose proof (proj1 (wait_outcome_through_iff _ _ _) Hthrough i) as Hi'.
  unfold stuck in Hi'.
  destruct (is_running (torn_down cfg env) i) eqn:Hrun.
  - apply foldl_late_exit_done; [apply in_seq; lia | by rewrite torn_down_length |].
    destruct (exits_later env i); [done|]. cbn in Hi'.
    discriminate Hi'. apply in_seq. lia.
  - by apply foldl_late_exit_keeps.
Qed.

(** A run in which every display got its player and the monitoring loop
    ended, the players exiting on the termination request or later. *)
Lemma run_completes cfg env fs0 dir :
  notifier_works cfg env fs0 ->
  dry_run (cli env) = false ->
  existing fs0 (working_list cfg (cli env)) <> [] ->
  mkdtemp_pick (gettempdir env) "mpvconfig_" (tmp_names env) fs0 = Some dir ->
  DISPLAYS cfg <> [] ->
  (forall j, j < length (DISPLAYS cfg) -> popen_fails env j = false) ->
  (wait_outcome env (torn_down cfg env) (seq 0 (length (DISPLAYS cfg)))).1 = true ->
  (loop_end cfg env).1 <> Diverge ->
  let vl := existing fs0 (working_list cfg (cli env)) in
  let w0 := announced cfg env dir vl (init_world fs0) in
  let hs := seq 0 (length (DISPLAYS cfg)) in
  run cfg env fs0
  = (Ok tt,
     {| fs := without_tree dir (fs w0);
        procs := waited_down cfg env;
        trace := trace w0 ++ launched_events dir vl 0 (DISPLAYS cfg)
                   ++ interrupt_note (loop_end cfg env).1
                   ++ map EvTerminate (still_running cfg env)
                   ++ map EvWait hs
                   ++ [EvRmtree dir] |}).
Proof.
  intros Hworks Hdry Hne Hdir HD Hok Hthrough Hloop vl w0 hs.
  rewrite (run_launched cfg env fs0 dir) by done. fold vl w0 hs.
  unfold hs. rewrite Hthrough. by destruct (loop_end cfg env).1.
Qed.

Lemma reaped_not_stuck env ps hs h :
  In h (wait_outcome env ps hs).2 -> stuck env ps h = false.
Proof.
  induction hs as [|h' hs IH]; cbn [wait_outcome]; [done|].
  destruct (stuck env ps h') eqn:E; [done|]. cbn [snd].
  intros [<-|Hin]; [done | by apply IH].
Qed.

Lemma foldl_late_exit_untouched env h ws : forall ps,
  is_running ps h = true -> ~ In h ws ->
  is_running (foldl (late_exit env) ps ws) h = true.
Proof.
  induction ws as [|x ws IH]; intros ps Hps Hnin; [done|]. cbn [foldl].
  apply IH; [|intros Hin; apply Hnin; by right].
  unfold late_exit. destruct (exits_later env x) as [rc|]; [|done].
  rewrite (child_exit_other ps (x, rc)); [done|].
  cbn [fst]. intros ->. apply Hnin. by left.
Qed.

(** C3: once at least one player was launched, the teardown starts the
    same way whether the monitoring loop ended because a child had exited
    or because the user interrupted (which is caught): a termination
    request goes to exactly the handles that [poll] reports running at
    that moment, in launch order; it changes nothing for a child that has
    exited.  Then the handles are waited on in launch order.  Provided
    every player exits on the request or later on its own, every launched
    handle is waited on exactly once, only then is the directory removed,
    and [main] returns normally.  A player that was running, ignores the
    request and never exits is never reaped: [main] stays in a wait for
    ever and the directory is never removed. *)
Theorem C3_teardown_same_for_both_causes (cfg : Config) (env : Env)
    (fs0 : gmap string node) (dir : string) :
  notifier_works cfg env fs0 ->
  dry_run (cli env) = false ->
  List.filter (path_exists fs0) (working_list cfg (cli env)) <> [] ->
  mkdtemp_pick (gettempdir env) "mpvconfig_" (tmp_names env) fs0 = Some dir ->
  DISPLAYS cfg <> [] ->
  (forall j, j < length (DISPLAYS cfg) -> popen_fails env j = false) ->
  ends_loop (length (DISPLAYS cfg)) (script env) = true ->
  let n := length (DISPLAYS cfg) in
  let hs := seq 0 n in
  let out := monitor_outcome hs (script env) (replicate n Running) in
  (out.1 = Raise StopIteration \/ out.1 = Raise KeyboardInterrupt) /\
  (forall h, is_running out.2 h = false -> signal_term env out.2 h = out.2) /\
  ((forall h, h < n -> ignores_sigterm env h = false \/ exits_later env h <> None) ->
   exists w' pre,
     run cfg env fs0 = (Ok tt, w') /\
     trace w' = pre
                ++ map EvTerminate (List.filter (is_running out.2) hs)
                ++ map EvWait hs
                ++ [EvRmtree dir] /\
     spawned pre = hs /\ NoDup hs /\
     terminated pre = [] /\ waited pre = [] /\ removed pre = [] /\
     (out.1 = Raise KeyboardInterrupt -> In "Interrupted by user" (printed pre)) /\
     terminated (trace w') = List.filter (is_running out.2) hs /\
     waited (trace w') = hs /\
     removed (trace w') = [dir] /\
     Forall (fun st => st <> Running) (procs w') /\
     fs w' !! dir = None) /\
  (forall h, h < n -> is_running out.2 h = true ->
     ignores_sigterm env h = true -> exits_later env h = None ->
     exists w',
       run cfg env fs0 = (Diverge, w') /\
       spawned (trace w') = hs /\
       terminated (trace w') = List.filter (is_running out.2) hs /\
       ~ In h (waited (trace w')) /\
       removed (trace w') = [] /\
       procs w' !! h = Some Running /\
       fs w' !! dir = Some Directory).
Proof.
  intros Hworks Hdry Hne Hdir HD Hok Hends n hs out.
  assert (Hout : out.1 <> Diverge).
  { apply monitor_outcome_ends; [by rewrite length_replicate | done]. }
  split.
  { destruct (monitor_outcome_cases hs (script env) (replicate n Running))
      as [H|[H|H]]; fold out in H; tauto. }
  split; [apply signal_term_exited|].
  set (vl := existing fs0 (working_list cfg (cli env))).
  set (w0 := announced cfg env dir vl (init_world fs0)).
  destruct (quiet_announced cfg env dir vl fs0) as (Ht & Hw & Hr & Hs).
  fold w0 in Ht, Hw, Hr, Hs.
  assert (Hnote : terminated (interrupt_note out.1) = []
                  /\ waited (interrupt_note out.1) = []
                  /\ removed (interrupt_note out.1) = []
                  /\ spawned (interrupt_note out.1) = []).
  { by destruct out.1 as [|[]|]. }
  destruct Hnote as (Hnt & Hnw & Hnr & Hns).
  pose proof (spawned_launched dir vl (DISPLAYS cfg) 0) as Hsl. fold n hs in Hsl.
  split.
  - intros Hexit.
    assert (Hthrough : (wait_outcome env (torn_down cfg env) hs).1 = true)
      by (by apply players_exit_through).
    rewrite (run_completes cfg env fs0 dir) by done.
    change (loop_end cfg env) with out. change (still_running cfg env)
      with (List.filter (is_running out.2) hs).
    change (seq 0 (length (DISPLAYS cfg))) with hs. fold vl w0.
    eexists _, (trace w0 ++ launched_events dir vl 0 (DISPLAYS cfg)
                  ++ interrupt_note out.1).
    split; [reflexivity|]. cbn [trace procs fs].
    split; [by rewrite <- !app_assoc|].
    unfold terminated, waited, removed, spawned in *. rewrite !flat_map_app.
    rewrite Ht, Hw, Hr, Hs, Hnt, Hnw, Hnr, Hns, Hsl.
    project_pieces.
    cbn [app flat_map]. rewrite !app_nil_r.
    repeat split; try done.
    + apply NoDup_seq.
    + intros HKI. unfold printed. rewrite !flat_map_app. rewrite HKI.
      apply in_or_app. right. apply in_or_app. right. by left.
    + by apply waited_down_all_exited.
    + apply without_tree_gone, in_tree_self.
  - intros h Hlt Hrunning Hignores Hnever.
    assert (Hstuck : stuck env (torn_down cfg env) h = true).
    { unfold stuck. rewrite torn_down_running by done.
      change (loop_end cfg env) with out. by rewrite Hrunning, Hignores, Hnever. }
    assert (Hblocked : (wait_outcome env (torn_down cfg env) hs).1 = false).
    { apply (wait_outcome_blocked env _ hs h); [apply in_seq; lia | done]. }
    assert (Hnotreaped : ~ In h (reaped cfg env)).
    { intros Hin. apply reaped_not_stuck in Hin. congruence. }
    rewrite (run_launched cfg env fs0 dir) by done.
    change (loop_end cfg env) with out. change (still_running cfg env)
      with (List.filter (is_running out.2) hs).
    change (seq 0 (length (DISPLAYS cfg))) with hs. fold vl w0.
    rewrite Hblocked.
    exists {| fs := fs w0; procs := waited_down cfg env;
              trace := trace w0 ++ launched_events dir vl 0 (DISPLAYS cfg)
                         ++ interrupt_note out.1
                         ++ map EvTerminate (List.filter (is_running out.2) hs)
                         ++ map EvWait (reaped cfg env) |}.
    split; [destruct out.1 as [[]|e|]; [reflexivity|reflexivity|congruence]|].
    cbn [trace procs fs].
    unfold terminated, waited, removed, spawned in *. rewrite !flat_map_app.
    rewrite Ht, Hw, Hr, Hs, Hnt, Hnw, Hnr, Hns, Hsl.
    project_pieces.
    cbn [app flat_map]. rewrite ?app_nil_r.
    split; [done|]. split; [done|]. split; [done|]. split; [done|].
    split; [|apply announced_dir].
    assert (Hstill : is_running (waited_down cfg env) h = true).
    { unfold waited_down. apply foldl_late_exit_untouched; [|done].
      unfold stuck in Hstuck. by apply andb_true_iff in Hstuck as [? _]. }
    unfold is_running, poll_state in Hstill.
    destruct (waited_down cfg env !! h) as [[|rc]|] eqn:E; [done|done|].
    apply lookup_ge_None in E. rewrite waited_down_length in E. lia.
Qed.

(** X9: when the user interrupts before any player has exited, and the
    players exit on the termination request or later on their own, [main]
    prints "Interrupted by user", sends a termination request to every
    player, waits for each, removes the directory and returns normally;
    by then every player has exited. *)
Theorem X9_interrupt_terminates_every_player (cfg : Config) (env : Env)
    (fs0 : gmap string node) (dir : string) (quiet rest : list tick) :
  notifier_works cfg env fs0 ->
  dry_run (cli env) = false ->
  List.filter (path_exists fs0) (working_list cfg (cli env)) <> [] ->
  mkdtemp_pick (gettempdir env) "mpvconfig_" (tmp_names env) fs0 = Some dir ->
  DISPLAYS cfg <> [] ->
  (forall j, j < length (DISPLAYS cfg) -> popen_fails env j = false) ->
  (forall h, h < length (DISPLAYS cfg) ->
     ignores_sigterm env h = false \/ exits_later env h <> None) ->
  script env = quiet ++ Interrupt :: rest ->
  ends_loop (length (DISPLAYS cfg)) quiet = false ->
  let video_list := List.filter (path_exists fs0) (working_list cfg (cli env)) in
  let hs := seq 0 (length (DISPLAYS cfg)) in
  exists w',
    run cfg env fs0 = (Ok tt, w') /\
    trace w'
    = trace (announced cfg env dir video_list (init_world fs0))
      ++ launched_events dir video_list 0 (DISPLAYS cfg)
      ++ [EvPrint "Interrupted by user"]
      ++ map EvTerminate hs ++ map EvWait hs ++ [EvRmtree dir] /\
    length (procs w') = length (DISPLAYS cfg) /\
    Forall (fun st => st <> Running) (procs w').
Proof.
  intros Hworks Hdry Hne Hdir HD Hok Hexit Hscript Hquiet video_list hs.
  assert (Hloop : loop_end cfg env
                  = (Raise KeyboardInterrupt, replicate (length (DISPLAYS cfg)) Running)).
  { unfold loop_end. rewrite Hscript. by apply monitor_outcome_interrupt. }
  assert (Hthrough : (wait_outcome env (torn_down cfg env) hs).1 = true)
    by (by apply players_exit_through).
  rewrite (run_completes cfg env fs0 dir); [|done..|by rewrite Hloop].
  unfold still_running. rewrite Hloop. cbn [fst snd interrupt_note].
  rewrite all_running_filter.
  eexists. split; [reflexivity|]. cbn [trace procs]. split; [done|].
  split; [apply waited_down_length | by apply waited_down_all_exited].
Qed.

Lemma child_exit_running ps c h :
  h < length ps ->
  is_running (child_exit ps c) h = is_running ps h && negb (Nat.eqb c.1 h).
Proof.
  intros Hlt. unfold is_running, poll_state, child_exit.
  destruct (Nat.eqb_spec c.1 h) as [Heq|Hne]; cbn [negb].
  - rewrite Heq. destruct (ps !! h) as [[|rc]|] eqn:E; rewrite ?E; try done.
    + by rewrite list_lookup_insert_eq.
    + apply lookup_ge_None in E. lia.
  - rewrite andb_true_r. destruct (ps !! c.1) as [[|rc]|]; try done.
    by rewrite list_lookup_insert_ne.
Qed.

Lemma foldl_child_exit_running cs : forall ps h,
  h < length ps ->
  is_running (foldl child_exit ps cs) h
  = is_running ps h && negb (existsb (fun c => Nat.eqb c.1 h) cs).
Proof.
  induction cs as [|c cs IH]; intros ps h Hlt; cbn [foldl existsb].
  - by rewrite andb_true_r.
  - rewrite IH by (by rewrite child_exit_length). rewrite child_exit_running by done.
    rewrite negb_orb. by rewrite andb_assoc.
Qed.

(** X10: when the monitoring loop ends because players exited during one
    sleep, and the other players exit on the termination request or later
    on their own, [main] prints nothing about an interrupt (even if a
    Ctrl-C would have come later), sends a termination request to exactly
    the players that did not exit in that sleep, in launch order, waits for
    every player, removes the directory and returns normally. *)
Theorem X10_first_finisher_stops_the_others (cfg : Config) (env : Env)
    (fs0 : gmap string node) (dir : string) (quiet rest : list tick)
    (children : list (nat * Z)) :
  notifier_works cfg env fs0 ->
  dry_run (cli env) = false ->
  List.filter (path_exists fs0) (working_list cfg (cli env)) <> [] ->
  mkdtemp_pick (gettempdir env) "mpvconfig_" (tmp_names env) fs0 = Some dir ->
  (forall j, j < length (DISPLAYS cfg) -> popen_fails env j = false) ->
  (forall h, h < length (DISPLAYS cfg) ->
     ignores_sigterm env h = false \/ exits_later env h <> None) ->
  script env = quiet ++ Exits children :: rest ->
  ends_loop (length (DISPLAYS cfg)) quiet = false ->
  existsb (fun c => Nat.ltb c.1 (length (DISPLAYS cfg))) children = true ->
  let video_list := List.filter (path_exists fs0) (working_list cfg (cli env)) in
  let hs := seq 0 (length (DISPLAYS cfg)) in
  exists w',
    run cfg env fs0 = (Ok tt, w') /\
    trace w'
    = trace (announced cfg env dir video_list (init_world fs0))
      ++ launched_events dir video_list 0 (DISPLAYS cfg)
      ++ map EvTerminate
           (List.filter (fun h => negb (existsb (fun c => Nat.eqb c.1 h) children)) hs)
      ++ map EvWait hs ++ [EvRmtree dir] /\
    Forall (fun st => st <> Running) (procs w').
Proof.
  intros Hworks Hdry Hne Hdir Hok Hexits Hscript Hquiet Hexit video_list hs.
  assert (HD : DISPLAYS cfg <> []).
  { intros HD. rewrite HD in Hexit. cbn [length] in Hexit.
    assert (H : existsb (fun c : nat * Z => Nat.ltb c.1 0) children = false).
    { clear. induction children as [|c cs IH]; [done|]. cbn [existsb]. by rewrite IH. }
    congruence. }
  assert (Hloop : loop_end cfg env
                  = (Raise StopIteration,
                     foldl child_exit (replicate (length (DISPLAYS cfg)) Running) children)).
  { unfold loop_end. rewrite Hscript. by apply monitor_outcome_first_exit. }
  assert (Hwait : (wait_outcome env (torn_down cfg env) hs).1 = true)
    by (by apply players_exit_through).
  assert (Hstill : still_running cfg env
    = List.filter (fun h => negb (existsb (fun c => Nat.eqb c.1 h) children)) hs).
  { unfold still_running. rewrite Hloop. cbn [snd]. apply filter_ext_in.
    intros h Hin%in_seq. rewrite foldl_child_exit_running by (rewrite length_replicate; lia).
    unfold is_running at 1, poll_state. by rewrite lookup_replicate_2 by lia. }
  rewrite (run_completes cfg env fs0 dir); [|done..|by rewrite Hloop].
  rewrite Hstill, Hloop. cbn [fst interrupt_note app].
  eexists. split; [reflexivity|]. split; [done|]. by apply waited_down_all_exited.
Qed.

(** ** Players that ignore the termination request *)

(** X11: [proc.wait()] has no timeout and nothing escalates to a kill.
    After a launch in which every spawn succeeded and a monitoring loop that
    ended, [main] returns (normally) exactly when every player still
    running at that moment exits on the termination request or later on
    its own; otherwise, with a player that ignores the request and never
    exits, it blocks for ever in a wait, and the directory is never
    removed. *)
Theorem X11_returns_iff_running_players_obey (cfg : Config) (env : Env)
    (fs0 : gmap string node) (dir : string) :
  notifier_works cfg env fs0 ->
  dry_run (cli env) = false ->
  List.filter (path_exists fs0) (working_list cfg (cli env)) <> [] ->
  mkdtemp_pick (gettempdir env) "mpvconfig_" (tmp_names env) fs0 = Some dir ->
  DISPLAYS cfg <> [] ->
  (forall j, j < length (DISPLAYS cfg) -> popen_fails env j = false) ->
  ends_loop (length (DISPLAYS cfg)) (script env) = true ->
  ((run cfg env fs0).1 = Ok tt <->
   forall h, h < length (DISPLAYS cfg) ->
     is_running (loop_end cfg env).2 h = true ->
     ignores_sigterm env h = false \/ exits_later env h <> None) /\
  ((run cfg env fs0).1 <> Ok tt ->
   (run cfg env fs0).1 = Diverge /\
   (exists h, h < length (DISPLAYS cfg) /\
      ignores_sigterm env h = true /\ exits_later env h = None) /\
   removed (trace (run cfg env fs0).2) = [] /\
   fs (run cfg env fs0).2 !! dir = Some Directory /\
   terminated (trace (run cfg env fs0).2) = still_running cfg env).
Proof.
  intros Hworks Hdry Hne Hdir HD Hok Hends.
  assert (Hloop : (loop_end cfg env).1 <> Diverge).
  { apply monitor_outcome_ends; [apply length_replicate | done]. }
  pose proof (waits_return_iff cfg env) as Hiff.
  assert (Hstuck : (wait_outcome env (torn_down cfg env)
                      (seq 0 (length (DISPLAYS cfg)))).1 = false ->
                   exists h, h < length (DISPLAYS cfg) /\
                     ignores_sigterm env h = true /\ exits_later env h = None).
  { intros Hblocked.
    destruct (wait_outcome_stuck _ _ _ Hblocked) as (h & Hin%in_seq & Hs).
    exists h. split; [lia|]. unfold stuck in Hs.
    rewrite torn_down_running in Hs by lia.
    destruct (ignores_sigterm env h); [|by rewrite andb_false_r in Hs].
    by destruct (exits_later env h); [rewrite andb_false_r in Hs|]. }
  rewrite (run_launched cfg env fs0 dir) by done.
  destruct (loop_end cfg env).1 as [[]|e|] eqn:Hl; [| |done];
    (destruct (wait_outcome env (torn_down cfg env) (seq 0 (length (DISPLAYS cfg)))).1
       eqn:Hwait; cbn [fst snd trace fs];
     [ split; [split; [intros _; by apply Hiff | done] | done]
     | split;
       [ split; [done | intros Hall; apply Hiff in Hall; congruence]
       | intros _; split; [done|]; split; [by apply Hstuck|];
         destruct (quiet_announced cfg env dir
                     (existing fs0 (working_list cfg (cli env))) fs0)
           as (Ht & _ & Hr & _);
         unfold removed, terminated in *; rewrite !flat_map_app, Hr, Ht;
         project_trace; rewrite ?app_nil_r;
         split; [done|]; split; [apply announced_dir | done] ] ]).
Qed.

(** ** What reaches the players and the notifier *)

Lemma lookup_map {A B} (f : A -> B) l i : map f l !! i = f <$> (l !! i).
Proof. revert i. induction l as [|x l IH]; intros [|i]; cbn; try done. Qed.

Lemma prefix_of_self {A} (l : list A) : exists k, l = take k l.
Proof. exists (length l). by rewrite firstn_all. Qed.

Lemma run_calls_not_found l :
  flat_map (fun e => match e with
                     | EvRun argv | EvRunFailed argv => [argv]
                     | _ => []
                     end) (map not_found_event l)
  = map not_found_argv l.
Proof.
  induction l as [|p l IH]; [done|].
  cbn [map flat_map not_found_event notification_event app]. f_equal. apply IH.
Qed.

Lemma ran_not_found l :
  flat_map (fun e => match e with EvRun argv => [argv] | _ => [] end)
    (map not_found_event l)
  = map not_found_argv l.
Proof.
  induction l as [|p l IH]; [done|].
  cbn [map flat_map not_found_event notification_event app]. f_equal. apply IH.
Qed.

Lemma run_calls_stopped env l :
  (notify_each env l).2 = false ->
  exists k, k <= length l /\
    run_calls (notify_each env l).1 = take k (map not_found_argv l).
Proof.
  induction l as [|p l IH]; [done|]. cbn [notify_each].
  destruct (run_fails env (not_found_argv p)); cbn [fst snd].
  - intros _. exists 1. split; [cbn; lia | done].
  - intros H. destruct (IH H) as (k & Hk & Heq). exists (S k).
    split; [cbn; lia|]. cbn [map take]. rewrite <- Heq. done.
Qed.

(** The [subprocess.run] calls of a run are the planned notifications, or,
    when one of them could not be started, those up to that one. *)
Lemma run_calls_shape cfg env fs0 r w' :
  run_shape cfg env fs0 r w' ->
  (exists k, run_calls (trace w') = take k (planned_notifications cfg env fs0)) /\
  (run_calls (trace w') = planned_notifications cfg env fs0 \/ r = Raise OSError).
Proof.
  intros Hshape. unfold planned_notifications.
  destruct Hshape as [Hstop|? Hnone ?|? Hnone ?|? Hne ?|d ? Hne ? ?|d k x ? Hne ? ? ? ? ?
                     |d ? Hne ? ? ?|d ? Hne ? ? ? ? ?|d ? Hne ? ? ? ? ? ?
                     |d ? Hne ? ? ? ? ? ?]; unfold_lets.
  1:{ destruct (run_calls_stopped env _ Hstop) as (k & Hk & Heq).
      split; [|by right]. exists k. cbn [trace extend init_world app]. rewrite Heq.
      by rewrite take_app_le by (by rewrite length_map). }
  1,2: rewrite Hnone.
  3-9: destruct (existing fs0 (working_list cfg (cli env))) eqn:Hvl; [done|].
  all: match goal with
       | |- (exists k, ?calls = take k ?plan) /\ _ =>
           assert (Hall : calls = plan);
           [ unfold run_calls; project_trace; rewrite ?run_calls_not_found;
             by rewrite ?app_nil_r
           | rewrite Hall; split; [apply prefix_of_self | by left] ]
       end.
Qed.

(** When every planned notification can be started, all are sent. *)
Lemma ran_shape cfg env fs0 r w' :
  run_shape cfg env fs0 r w' ->
  (forall argv, In argv (planned_notifications cfg env fs0) -> run_fails env argv = false) ->
  ran (trace w') = planned_notifications cfg env fs0.
Proof.
  intros Hshape Hstarts. unfold planned_notifications in *.
  destruct Hshape as [Hstop|? Hnone ?|? Hnone Hcrit|? Hne ?|d ? Hne ? ?|d k x ? Hne ? ? ? ? ?
                     |d ? Hne ? ? ?|d ? Hne ? ? ? ? ?|d ? Hne ? ? ? ? ? ?
                     |d ? Hne ? ? ? ? ? ?]; unfold_lets.
  1:{ exfalso. rewrite notify_each_works in Hstop; [done|].
      intros p Hp. apply Hstarts, in_or_app. left. by apply in_map. }
  2:{ exfalso. rewrite Hnone in Hstarts. rewrite Hstarts in Hcrit; [done|].
      apply in_or_app. right. by left. }
  1: rewrite Hnone.
  2-8: destruct (existing fs0 (working_list cfg (cli env))) eqn:Hvl; [done|].
  all: unfold ran; project_trace; rewrite ?ran_not_found; by rewrite ?app_nil_r.
Qed.

(** Every command line handed to [Popen] is built from the run's directory
    and the list of existing videos. *)
Lemma popen_attempts_shape cfg env fs0 r w' :
  run_shape cfg env fs0 r w' ->
  exists dir ds,
    popen_attempts (trace w')
    = map (fun display => mpv_cmd dir display (existing fs0 (working_list cfg (cli env)))) ds.
Proof.
  intros Hshape.
  destruct Hshape as [Hstop|? ? ?|? ? ?|? ? ?|d ? ? ? ?|d k x ? ? ? ? Hx ? ?
                     |d ? ? ? ? ?|d ? ? ? ? ? ? ?|d ? ? ? ? ? ? ? ?
                     |d ? ? ? ? ? ? ? ?]; unfold_lets.
  1-4: exists "", []; by project_trace.
  1: exists d, []; by project_trace.
  1: exists d, (take (S k) (DISPLAYS cfg)); project_trace;
     rewrite (take_S_r _ _ x) by done; by rewrite map_app.
  1: exists d, []; by project_trace.
  all: exists d, (DISPLAYS cfg); project_trace; by rewrite ?app_nil_r.
Qed.

(** C10: an entry of the working list that names something on the
    filesystem, whatever its kind (a directory, a device), never causes a
    notification, and is in every command line that [main] hands to
    [Popen].  When [notify-send] can be started for the missing entries,
    the entry is kept by [parse_arguments] and, outside a dry run, it is
    an argument of the player started for each display, up to the first
    display whose spawn fails.  When [notify-send] cannot be started for
    a missing entry, [main] ends in the resolution and starts no player. *)
Theorem C10_exists_accepts_any_node (cfg : Config) (env : Env)
    (fs0 : gmap string node) (p : string) (nd : node) :
  fs0 !! p = Some nd ->
  In p (working_list cfg (cli env)) ->
  ~ In (not_found_argv p) (run_calls (trace (run cfg env fs0).2)) /\
  (forall cmd, In cmd (popen_attempts (trace (run cfg env fs0).2)) -> In p cmd) /\
  (notifier_works cfg env fs0 ->
   exists video_list w,
     parse_arguments cfg env (init_world fs0) = (Ok (cli env, video_list), w) /\
     In p video_list /\
     forall dir k display,
       dry_run (cli env) = false ->
       mkdtemp_pick (gettempdir env) "mpvconfig_" (tmp_names env) fs0 = Some dir ->
       DISPLAYS cfg !! k = Some display ->
       (forall j, j < k -> popen_fails env j = false) ->
       popen_attempts (trace (run cfg env fs0).2) !! k
       = Some (["mpv"; "--config-dir=" +:+ dir; "--fs-screen=" +:+ PyStr.str_int display]
                 ++ video_list)) /\
  (~ notifier_works cfg env fs0 ->
   (run cfg env fs0).1 = Raise OSError /\
   popen_attempts (trace (run cfg env fs0).2) = []).
Proof.
  intros Hnd Hin.
  assert (Hex : path_exists fs0 p = true).
  { unfold path_exists. apply bool_decide_eq_true. rewrite Hnd. by eexists. }
  assert (Hkept : In p (existing fs0 (working_list cfg (cli env)))).
  { unfold existing. by apply filter_In. }
  destruct (run cfg env fs0) as [r w'] eqn:Hrun. cbn [fst snd].
  pose proof (run_shape_total cfg env fs0 r w' Hrun) as Hshape.
  split; [|split; [|split]].
  4:{ intros Hfails.
      assert (Hstop : (notify_each env
                         (take 3 (missing fs0 (working_list cfg (cli env))))).2 = false).
      { destruct (notify_each env _).2 eqn:E; [|done].
        exfalso. apply Hfails. by apply notifier_works_iff. }
      unfold run in Hrun. rewrite main_resolution_fails in Hrun by done.
      injection Hrun as <- <-. split; [done|]. by project_trace. }
  - destruct (run_calls_shape cfg env fs0 r w' Hshape) as [[k ->] _].
    intros Hn%In_take. unfold planned_notifications in Hn.
    apply in_app_or in Hn as [Hn|Hn].
    + apply in_map_iff in Hn as (q & Hq%not_found_argv_inj & Hqin). subst q.
      apply In_take, missing_not_exists in Hqin. congruence.
    + destruct (existing fs0 (working_list cfg (cli env))); [|done].
      destruct Hn as [Hn|[]]. unfold not_found_argv, notification_argv in Hn.
      discriminate Hn.
  - destruct (popen_attempts_shape cfg env fs0 r w' Hshape) as (dir & ds & ->).
    intros cmd (x & <- & _)%in_map_iff. unfold mpv_cmd. apply in_or_app. by right.
  - intros Hworks. eexists _, _.
    split; [by apply parse_arguments_spec|]. cbn [fs init_world].
    split; [done|].
    intros dir k display Hdry Hdir Hk Hbefore.
    pose proof (proj1 (notifier_works_iff _ _ _) Hworks) as Hnotes.
    assert (Hne : existing fs0 (working_list cfg (cli env)) <> []).
    { intros Hnil. by rewrite Hnil in Hkept. }
    destruct Hshape as [Hstop|? Hnone ?|? Hnone ?|? ? Hd|d ? ? Hd ?
                       |d k' x' ? ? Hd ? Hx' Hbefore' Hfail
                       |d ? ? Hd ? HD|d ? ? Hd ? ? ? ?|d ? ? Hd ? ? ? ? ?
                       |d ? ? Hd ? ? ? ? ?];
      unfold_lets; try congruence; assert (d = dir) as -> by congruence.
    + assert (Hle : k <= k').
      { destruct (decide (k' < k)) as [Hlt|]; [|lia].
        rewrite Hbefore in Hfail by done. done. }
      project_trace.
      change [mpv_cmd dir x' (existing fs0 (working_list cfg (cli env)))]
        with (map (fun display =>
                     mpv_cmd dir display (existing fs0 (working_list cfg (cli env)))) [x']).
      rewrite <- map_app, <- (take_S_r _ _ x') by done.
      rewrite lookup_map, lookup_take_lt by lia. by rewrite Hk.
    + by rewrite HD in Hk.
    + project_trace. rewrite ?app_nil_r, lookup_map. by rewrite Hk.
    + project_trace. rewrite ?app_nil_r, lookup_map. by rewrite Hk.
    + project_trace. rewrite ?app_nil_r, lookup_map. by rewrite Hk.
Qed.

(** X12: outside a dry run, when every spawn succeeds, exactly one player
    is launched per display, in the order of [DISPLAYS] and with handles
    0, 1, ...; each command line is [mpv --config-dir=<dir>
    --fs-screen=<display>] followed by the whole list of existing videos.
    This holds however the run goes on. *)
Theorem X12_one_player_per_display_in_order (cfg : Config) (env : Env)
    (fs0 : gmap string node) (dir : string) :
  notifier_works cfg env fs0 ->
  dry_run (cli env) = false ->
  List.filter (path_exists fs0) (working_list cfg (cli env)) <> [] ->
  mkdtemp_pick (gettempdir env) "mpvconfig_" (tmp_names env) fs0 = Some dir ->
  (forall j, j < length (DISPLAYS cfg) -> popen_fails env j = false) ->
  let video_list := List.filter (path_exists fs0) (working_list cfg (cli env)) in
  popen_attempts (trace (run cfg env fs0).2)
  = map (fun display =>
           ["mpv"; "--config-dir=" +:+ dir; "--fs-screen=" +:+ PyStr.str_int display]
             ++ video_list) (DISPLAYS cfg) /\
  spawned (trace (run cfg env fs0).2) = seq 0 (length (DISPLAYS cfg)) /\
  length (procs (run cfg env fs0).2) = length (DISPLAYS cfg).
Proof.
  intros Hworks Hdry Hne Hdir Hok video_list.
  change (existing fs0 (working_list cfg (cli env)) <> []) in Hne.
  pose proof (proj1 (notifier_works_iff _ _ _) Hworks) as Hnotes.
  destruct (run cfg env fs0) as [r w'] eqn:Hrun. cbn [snd].
  pose proof (run_shape_total cfg env fs0 r w' Hrun) as Hshape.
  destruct Hshape as [Hstop|? Hnone ?|? Hnone ?|? ? Hd|d ? ? Hd ?
                     |d k x ? ? Hd ? Hx Hbefore Hfail
                     |d ? ? Hd ? HD|d ? ? Hd ? ? ? ?|d ? ? Hd ? ? ? ? ?
                     |d ? ? Hd ? ? ? ? ?];
    unfold_lets; try congruence; assert (d = dir) as -> by congruence.
  - apply lookup_lt_Some in Hx. rewrite Hok in Hfail by done. done.
  - rewrite HD. project_trace. done.
  - project_trace. cbn [procs]. by rewrite ?app_nil_r, loop_end_length.
  - project_trace. cbn [procs]. by rewrite ?app_nil_r, waited_down_length.
  - project_trace. cbn [procs]. by rewrite ?app_nil_r, waited_down_length.
Qed.

(** X13: whenever a run creates its directory, the only documents it
    writes are [mpv.conf] and [input.conf] in it, in this order, and the
    loop directive of [mpv.conf] is decided by the number of listed videos
    that exist (not by the number listed): [loop=inf] exactly when one
    exists. *)
Theorem X13_settings_follow_the_existing_videos (cfg : Config) (env : Env)
    (fs0 : gmap string node) (dir : string) :
  notifier_works cfg env fs0 ->
  List.filter (path_exists fs0) (working_list cfg (cli env)) <> [] ->
  mkdtemp_pick (gettempdir env) "mpvconfig_" (tmp_names env) fs0 = Some dir ->
  let video_list := List.filter (path_exists fs0) (working_list cfg (cli env)) in
  let settings := adjust_mpv_conf (Z.of_nat (length video_list)) in
  written (trace (run cfg env fs0).2)
  = [(path_join dir "mpv.conf", settings); (path_join dir "input.conf", INPUT_CONF)] /\
  (In "loop=inf" (PyStr.lines settings) <-> length video_list = 1) /\
  (In "loop-playlist=inf" (PyStr.lines settings) <-> length video_list <> 1).
Proof.
  intros Hworks Hne Hdir video_list settings.
  change (existing fs0 (working_list cfg (cli env)) <> []) in Hne.
  pose proof (proj1 (notifier_works_iff _ _ _) Hworks) as Hnotes.
  split.
  - destruct (run cfg env fs0) as [r w'] eqn:Hrun. cbn [snd].
    pose proof (run_shape_total cfg env fs0 r w' Hrun) as Hshape.
    destruct Hshape as [Hstop|? Hnone ?|? Hnone ?|? ? Hd|d ? ? Hd ?
                       |d k x ? ? Hd ? Hx Hbefore Hfail
                       |d ? ? Hd ? HD|d ? ? Hd ? ? ? ?|d ? ? Hd ? ? ? ? ?
                       |d ? ? Hd ? ? ? ? ?];
      unfold_lets; try congruence;
      assert (d = dir) as -> by congruence; by project_trace.
  - destruct (adjust_mpv_conf_directives (Z.of_nat (length video_list))) as [H1 H2].
    fold settings in H1, H2. rewrite H1, H2. lia.
Qed.

(** ** Notifications of a whole run *)

(** X14: in every run the only programs [main] runs through
    [subprocess.run] are [notify-send] notifications, attempted in this
    order: those for the first three missing paths, then, exactly when no
    listed video exists, the critical "No videos to play"; at most four in
    all.  The calls of a run are these, cut short only after one that
    could not be started, [main] then ending with [OSError]; when all can
    be started, all are sent.  No failure later in the run is notified. *)
Theorem X14_only_missing_files_and_no_videos_are_notified (cfg : Config) (env : Env)
    (fs0 : gmap string node) :
  let tr := trace (run cfg env fs0).2 in
  let planned :=
    map not_found_argv (take 3 (missing fs0 (working_list cfg (cli env))))
    ++ match List.filter (path_exists fs0) (working_list cfg (cli env)) with
       | [] => [notification_argv "No videos to play" true]
       | _ :: _ => []
       end in
  (exists k, run_calls tr = take k planned) /\
  length (run_calls tr) <= 4 /\
  (run_calls tr = planned \/ (run cfg env fs0).1 = Raise OSError) /\
  ((forall argv, In argv planned -> run_fails env argv = false) -> ran tr = planned).
Proof.
  cbn zeta. fold (existing fs0 (working_list cfg (cli env))).
  fold (planned_notifications cfg env fs0).
  destruct (run cfg env fs0) as [r w'] eqn:Hrun. cbn [fst snd].
  pose proof (run_shape_total cfg env fs0 r w' Hrun) as Hshape.
  destruct (run_calls_shape cfg env fs0 r w' Hshape) as [[k Hk] Hall].
  split; [by exists k|].
  split; [|split; [done | apply (ran_shape cfg env fs0 r w' Hshape)]].
  rewrite Hk, length_take. unfold planned_notifications.
  rewrite length_app, length_map, length_take.
  destruct (existing _ _); cbn [length]; lia.
Qed.

(** ** Failures before and during the launch *)

(** X6: when a spawn fails, [main] stops on the spot: the players launched
    for the earlier displays keep running, none of them gets a termination
    request or a wait, and the directory with both documents stays on
    disk. *)
Theorem X6_spawn_failure_orphans_players_and_directory (cfg : Config) (env : Env)
    (fs0 : gmap string node) (dir : string) (k : nat) :
  notifier_works cfg env fs0 ->
  dry_run (cli env) = false ->
  List.filter (path_exists fs0) (working_list cfg (cli env)) <> [] ->
  mkdtemp_pick (gettempdir env) "mpvconfig_" (tmp_names env) fs0 = Some dir ->
  k < length (DISPLAYS cfg) ->
  (forall j, j < k -> popen_fails env j = false) ->
  popen_fails env k = true ->
  let video_list := List.filter (path_exists fs0) (working_list cfg (cli env)) in
  exists w',
    run cfg env fs0 = (Raise OSError, w') /\
    procs w' = replicate k Running /\
    terminated (trace w') = [] /\
    waited (trace w') = [] /\
    removed (trace w') = [] /\
    fs w' !! dir = Some Directory /\
    fs w' !! path_join dir "mpv.conf"
      = Some (RegularFile (adjust_mpv_conf (Z.of_nat (length video_list)))) /\
    fs w' !! path_join dir "input.conf" = Some (RegularFile INPUT_CONF).
Proof.
  intros Hworks Hdry Hne Hdir Hk Hok Hfail video_list.
  destruct (lookup_lt_is_Some_2 (DISPLAYS cfg) k Hk) as [x Hx].
  rewrite (run_spawn_fails cfg env fs0 dir k x) by done.
  eexists. split; [reflexivity|]. cbn [procs trace fs].
  split; [done|].
  project_trace.
  repeat split; try done;
    [apply announced_dir | apply announced_documents | apply announced_documents].
Qed.

(** X7: when some video exists but every name [mkdtemp] draws is taken,
    [main] ends with [FileExistsError] right after the notifications:
    nothing was printed, created, written or spawned, and the filesystem is
    as before. *)
Theorem X7_no_free_name_aborts_before_any_effect (cfg : Config) (env : Env)
    (fs0 : gmap string node) :
  notifier_works cfg env fs0 ->
  List.filter (path_exists fs0) (working_list cfg (cli env)) <> [] ->
  (forall n, In n (tmp_names env) ->
     is_Some (fs0 !! os_path_join (gettempdir env) ("mpvconfig_" +:+ n))) ->
  exists w',
    run cfg env fs0 = (Raise FileExistsError, w') /\
    exit_status (run cfg env fs0).1 = Some 1%Z /\
    fs w' = fs0 /\ procs w' = [] /\
    trace w' = map not_found_event (take 3 (missing fs0 (working_list cfg (cli env)))).
Proof.
  intros Hworks Hne Htaken. apply mkdtemp_pick_none in Htaken.
  change (existing fs0 (working_list cfg (cli env)) <> []) in Hne.
  destruct (existing fs0 (working_list cfg (cli env))) as [|v vl] eqn:Hvl; [done|].
  unfold run. rewrite (main_with_videos cfg env (init_world fs0) v vl) by done.
  cbn [fs init_world]. rewrite Htaken.
  eexists. split; [reflexivity|]. done.
Qed.

(** X15: with an empty [DISPLAYS], outside a dry run, [main] launches
    nothing and skips the monitoring loop altogether (so it cannot hang,
    whatever happens around it): it creates the directory, removes it again
    and returns normally. *)
Theorem X15_no_displays_no_monitoring (cfg : Config) (env : Env)
    (fs0 : gmap string node) (dir : string) :
  notifier_works cfg env fs0 ->
  dry_run (cli env) = false ->
  List.filter (path_exists fs0) (working_list cfg (cli env)) <> [] ->
  mkdtemp_pick (gettempdir env) "mpvconfig_" (tmp_names env) fs0 = Some dir ->
  DISPLAYS cfg = [] ->
  let video_list := List.filter (path_exists fs0) (working_list cfg (cli env)) in
  exists w',
    run cfg env fs0 = (Ok tt, w') /\
    trace w' = trace (announced cfg env dir video_list (init_world fs0))
               ++ [EvRmtree dir] /\
    procs w' = [] /\
    fs w' !! dir = None.
Proof.
  intros Hworks Hdry Hne Hdir HD video_list.
  rewrite (run_with_videos cfg env fs0 dir) by done.
  rewrite coordinate_no_displays; [|done|done|apply announced_has_dir].
  eexists. split; [reflexivity|]. cbn [trace procs fs].
  repeat split. apply without_tree_gone, in_tree_self.
Qed.

(** ** Resolving twice *)

Lemma existing_idempotent f l : existing f (existing f l) = existing f l.
Proof.
  unfold existing. induction l as [|p l IH]; [done|]. cbn [List.filter].
  destruct (path_exists f p) eqn:E; [|done]. cbn [List.filter]. by rewrite E, IH.
Qed.

Lemma missing_of_existing f l : missing f (existing f l) = [].
Proof.
  unfold missing, existing. induction l as [|p l IH]; [done|]. cbn [List.filter].
  destruct (path_exists f p) eqn:E; [|done]. cbn [List.filter]. by rewrite E.
Qed.

(** X16: [parse_arguments] is idempotent on a non-empty result: given its
    own result as the command-line videos it returns the same list, sends
    no notification and changes nothing.  (An empty result is different: it
    makes the next call fall back to [VIDEO_PATH].) *)
Theorem X16_resolving_the_result_again_is_silent (cfg : Config) (env : Env) (w : World) :
  let video_list := List.filter (path_exists (fs w)) (working_list cfg (cli env)) in
  video_list <> [] ->
  parse_arguments cfg (with_videos video_list env) w
  = (Ok (cli (with_videos video_list env), video_list), w).
Proof.
  intros video_list Hne. rewrite parse_arguments_general.
  assert (Hwl : working_list cfg (cli (with_videos video_list env)) = video_list).
  { unfold working_list, with_videos. cbn [cli videos]. by destruct video_list. }
  rewrite Hwl. unfold video_list.
  fold (existing (fs w) (working_list cfg (cli env))).
  rewrite existing_idempotent, missing_of_existing. cbn [take notify_each fst snd].
  by rewrite extend_nil.
Qed.

(** ** While nothing happens *)

(** X17: as long as no player exits and the user does not interrupt,
    [main] stays in its monitoring loop: every player keeps running, no
    termination request is sent, nothing is waited for, and the directory
    with both documents stays in place. *)
Theorem X17_players_keep_running_while_nothing_happens (cfg : Config) (env : Env)
    (fs0 : gmap string node) (dir : string) :
  notifier_works cfg env fs0 ->
  dry_run (cli env) = false ->
  List.filter (path_exists fs0) (working_list cfg (cli env)) <> [] ->
  mkdtemp_pick (gettempdir env) "mpvconfig_" (tmp_names env) fs0 = Some dir ->
  DISPLAYS cfg <> [] ->
  (forall j, j < length (DISPLAYS cfg) -> popen_fails env j = false) ->
  ends_loop (length (DISPLAYS cfg)) (script env) = false ->
  let video_list := List.filter (path_exists fs0) (working_list cfg (cli env)) in
  exists w',
    run cfg env fs0 = (Diverge, w') /\
    procs w' = replicate (length (DISPLAYS cfg)) Running /\
    trace w' = trace (announced cfg env dir video_list (init_world fs0))
               ++ launched_events dir video_list 0 (DISPLAYS cfg) /\
    fs w' !! dir = Some Directory /\
    fs w' !! path_join dir "mpv.conf"
      = Some (RegularFile (adjust_mpv_conf (Z.of_nat (length video_list)))) /\
    fs w' !! path_join dir "input.conf" = Some (RegularFile INPUT_CONF).
Proof.
  intros Hworks Hdry Hne Hdir HD Hok Hquiet video_list.
  assert (Hloop : loop_end cfg env
                  = (Diverge, replicate (length (DISPLAYS cfg)) Running)).
  { unfold loop_end. by apply monitor_outcome_forever. }
  rewrite (run_launched cfg env fs0 dir) by done. rewrite Hloop. cbn [fst snd].
  eexists. split; [reflexivity|]. cbn [procs trace fs].
  repeat split; try done;
    [apply announced_dir | apply announced_documents | apply announced_documents].
Qed.

(** ** The further theorems at concrete runs *)

Lemma C3_witness :
  (run two_displays (env_slow [Exits []; Interrupt]) fs_demo).1 = Ok tt /\
  waited (trace (run two_displays (env_slow [Exits []; Interrupt]) fs_demo).2) = [0; 1] /\
  terminated (trace (run two_displays (env_slow [Exits []; Interrupt]) fs_demo).2)
  = [0; 1].
Proof.
  destruct (C3_teardown_same_for_both_causes
              two_displays (env_slow [Exits []; Interrupt]) fs_demo dir_demo)
    as (_ & _ & Hreaped & _).
  - intros p _. reflexivity.
  - reflexivity.
  - vm_compute. discriminate.
  - reflexivity.
  - discriminate.
  - reflexivity.
  - reflexivity.
  - destruct Hreaped
      as (w' & pre & Hrun & _ & _ & _ & _ & _ & _ & _ & Hterm & Hwait & _).
    + intros h _. right. discriminate.
    + rewrite Hrun. split; [reflexivity|]. split; [exact Hwait | exact Hterm].
Defined.

Lemma C4_witness :
  (parse_arguments shipped_config (env_demo false never []) (init_world fs_demo)).1
    = Ok (cli_demo false, ["a.mp4"; "b.mp4"; "/videos"]) /\
  length (trace (parse_arguments shipped_config (env_demo false never [])
                   (init_world fs_demo)).2) = 3.
Proof.
  destruct (proj1 (C4_resolve_notifies_min_k_3
                     shipped_config (env_demo false never []) (init_world fs_demo)))
    as (w' & Hrun & _ & _ & Htrace & _).
  - intros p _. reflexivity.
  - rewrite Hrun. split; [reflexivity|]. cbn [snd]. rewrite Htrace. reflexivity.
Defined.

Lemma C10_witness :
  popen_attempts
    (trace (run shipped_config (env_demo false never [Exits []; Interrupt]) fs_demo).2)
    !! 0
  = Some ["mpv"; "--config-dir=/tmp/mpvconfig_k3j2"; "--fs-screen=0";
          "a.mp4"; "b.mp4"; "/videos"].
Proof.
  destruct (C10_exists_accepts_any_node
              shipped_config (env_demo false never [Exits []; Interrupt]) fs_demo
              "/videos" Directory)
    as (_ & _ & Hpassed & _).
  - reflexivity.
  - cbn. tauto.
  - destruct Hpassed as (video_list & w & Hparse & _ & Hcmd).
    + intros p _. reflexivity.
    + rewrite (Hcmd dir_demo 0 0%Z);
        [|reflexivity|reflexivity|reflexivity|intros j Hj; lia].
      assert (Hvl : video_list = ["a.mp4"; "b.mp4"; "/videos"]).
      { vm_compute in Hparse. congruence. }
      rewrite Hvl. reflexivity.
Defined.

Lemma X1_witness :
  (run two_displays (env_demo false (fun i => Nat.eqb i 1) [Interrupt]) fs_demo).1
  = Raise OSError.
Proof.
  apply (proj2 (X1_what_escapes_main
           two_displays (env_demo false (fun i => Nat.eqb i 1) [Interrupt]) fs_demo)
           (firstn 9 (trace (run two_displays
                               (env_demo false (fun i => Nat.eqb i 1) [Interrupt])
                               fs_demo).2))
           (EvPopen (mpv_cmd dir_demo 1%Z ["a.mp4"; "b.mp4"; "/videos"]) None)
           []).
  - vm_compute. reflexivity.
  - reflexivity.
Defined.

Lemma X2_witness :
  fs (run two_displays (env_demo false never [Exits []; Exits [(1, 0%Z)]]) fs_demo).2
    !! "a.mp4" = Some (RegularFile "A").
Proof.
  rewrite (X2_paths_outside_the_directory_untouched
             two_displays (env_demo false never [Exits []; Exits [(1, 0%Z)]])
             fs_demo "a.mp4").
  - reflexivity.
  - intros d Hin. vm_compute in Hin. destruct Hin as [<-|[]]. reflexivity.
Defined.

Lemma fs_demo_entries path :
  is_Some (fs_demo !! path) -> path = "a.mp4" \/ path = "b.mp4" \/ path = "/videos".
Proof.
  unfold fs_demo. intros [x Hx].
  apply lookup_insert_Some in Hx as [[<- _]|[_ Hx]]; [tauto|].
  apply lookup_insert_Some in Hx as [[<- _]|[_ Hx]]; [tauto|].
  apply lookup_singleton_Some in Hx as [<- _]. tauto.
Qed.

Lemma X5_witness :
  fs (run two_displays (env_demo false never [Exits []; Exits [(1, 0%Z)]]) fs_demo).2
  = fs_demo.
Proof.
  apply (X5_completed_run_restores_filesystem
           two_displays (env_demo false never [Exits []; Exits [(1, 0%Z)]]) fs_demo).
  - reflexivity.
  - intros d path Hin Hsome. vm_compute in Hin. destruct Hin as [<-|[]].
    destruct (fs_demo_entries path Hsome) as [->|[->| ->]]; reflexivity.
Defined.

Lemma X6_witness :
  (run two_displays (env_demo false (fun i => Nat.eqb i 1) [Interrupt]) fs_demo).1
    = Raise OSError /\
  procs (run two_displays (env_demo false (fun i => Nat.eqb i 1) [Interrupt]) fs_demo).2
    = [Running].
Proof.
  destruct (X6_spawn_failure_orphans_players_and_directory
              two_displays (env_demo false (fun i => Nat.eqb i 1) [Interrupt])
              fs_demo dir_demo 1)
    as (w' & Hrun & Hprocs & _).
  - intros p _. reflexivity.
  - reflexivity.
  - vm_compute. discriminate.
  - reflexivity.
  - vm_compute. lia.
  - intros j Hj. destruct j as [|j]; [reflexivity | lia].
  - reflexivity.
  - rewrite Hrun. split; [reflexivity | exact Hprocs].
Defined.

Lemma X7_witness :
  (run shipped_config (env_demo false never []) fs_taken).1 = Raise FileExistsError /\
  fs (run shipped_config (env_demo false never []) fs_taken).2 = fs_taken.
Proof.
  destruct (X7_no_free_name_aborts_before_any_effect
              shipped_config (env_demo false never []) fs_taken)
    as (w' & Hrun & _ & Hfs & _).
  - intros p _. reflexivity.
  - vm_compute. discriminate.
  - intros n [<-|[]]. eexists. vm_compute. reflexivity.
  - rewrite Hrun. split; [reflexivity | exact Hfs].
Defined.

Lemma X8_witness :
  (monitor (seq 0 2) [Exits []; Exits [(5, 0%Z)]]
     (with_procs (replicate 2 Running) (init_world fs_demo))).1 = Diverge.
Proof.
  apply (proj2 (proj1 (X8_monitoring_loop_ends_iff
                  2 [Exits []; Exits [(5, 0%Z)]]
                  (with_procs (replicate 2 Running) (init_world fs_demo))
                  eq_refl))).
  reflexivity.
Defined.

Lemma X9_witness :
  (run two_displays (env_slow [Exits []; Interrupt]) fs_demo).1 = Ok tt /\
  Forall (fun st => st <> Running)
    (procs (run two_displays (env_slow [Exits []; Interrupt]) fs_demo).2).
Proof.
  destruct (X9_interrupt_terminates_every_player
              two_displays (env_slow [Exits []; Interrupt])
              fs_demo dir_demo [Exits []] [])
    as (w' & Hrun & _ & _ & Hprocs).
  - intros p _. reflexivity.
  - reflexivity.
  - vm_compute. discriminate.
  - reflexivity.
  - discriminate.
  - reflexivity.
  - intros h _. right. discriminate.
  - reflexivity.
  - reflexivity.
  - rewrite Hrun. split; [reflexivity | exact Hprocs].
Defined.

Lemma X10_witness :
  terminated
    (trace (run two_displays
              (env_demo false never [Exits []; Exits [(1, 0%Z)]; Interrupt]) fs_demo).2)
  = [0].
Proof.
  destruct (X10_first_finisher_stops_the_others
              two_displays (env_demo false never [Exits []; Exits [(1, 0%Z)]; Interrupt])
              fs_demo dir_demo [Exits []] [Interrupt] [(1, 0%Z)])
    as (w' & Hrun & Htrace & _).
  - intros p _. reflexivity.
  - reflexivity.
  - vm_compute. discriminate.
  - reflexivity.
  - reflexivity.
  - intros h _. left. reflexivity.
  - reflexivity.
  - reflexivity.
  - reflexivity.
  - rewrite Hrun. cbn [snd]. rewrite Htrace. reflexivity.
Defined.

Lemma X11_witness :
  (run two_displays (env_stubborn [Exits []; Interrupt]) fs_demo).1 = Diverge /\
  removed (trace (run two_displays (env_stubborn [Exits []; Interrupt]) fs_demo).2) = [].
Proof.
  destruct (X11_returns_iff_running_players_obey
              two_displays (env_stubborn [Exits []; Interrupt]) fs_demo dir_demo)
    as [_ Hblocked].
  - intros p _. reflexivity.
  - reflexivity.
  - vm_compute. discriminate.
  - reflexivity.
  - discriminate.
  - reflexivity.
  - reflexivity.
  - destruct Hblocked as (Hdiv & _ & Hrem & _); [vm_compute; discriminate|].
    split; [exact Hdiv | exact Hrem].
Defined.

Lemma X12_witness :
  popen_attempts
    (trace (run two_displays (env_demo false never [Exits []; Interrupt]) fs_demo).2)
  = [["mpv"; "--config-dir=/tmp/mpvconfig_k3j2"; "--fs-screen=0";
      "a.mp4"; "b.mp4"; "/videos"];
     ["mpv"; "--config-dir=/tmp/mpvconfig_k3j2"; "--fs-screen=1";
      "a.mp4"; "b.mp4"; "/videos"]].
Proof.
  destruct (X12_one_player_per_display_in_order
              two_displays (env_demo false never [Exits []; Interrupt]) fs_demo dir_demo)
    as (Hattempts & _).
  - intros p _. reflexivity.
  - reflexivity.
  - vm_compute. discriminate.
  - reflexivity.
  - reflexivity.
  - rewrite Hattempts. reflexivity.
Defined.

Lemma X13_witness :
  map fst (written (trace (run two_displays (env_demo true never []) fs_demo).2))
  = ["/tmp/mpvconfig_k3j2/mpv.conf"; "/tmp/mpvconfig_k3j2/input.conf"].
Proof.
  destruct (X13_settings_follow_the_existing_videos
              two_displays (env_demo true never []) fs_demo dir_demo)
    as (Hwritten & _).
  - intros p _. reflexivity.
  - vm_compute. discriminate.
  - reflexivity.
  - rewrite Hwritten. reflexivity.
Defined.

Lemma X14_witness :
  ran (trace (run shipped_config env_nothing ∅).2)
  = [not_found_argv "x"; not_found_argv "y"; not_found_argv "z";
     notification_argv "No videos to play" true].
Proof.
  rewrite (proj2 (proj2 (proj2 (X14_only_missing_files_and_no_videos_are_notified
                                  shipped_config env_nothing ∅)))).
  - reflexivity.
  - intros argv _. reflexivity.
Defined.

Lemma X15_witness :
  (run no_displays (env_demo false never []) fs_demo).1 = Ok tt /\
  procs (run no_displays (env_demo false never []) fs_demo).2 = [].
Proof.
  destruct (X15_no_displays_no_monitoring
              no_displays (env_demo false never []) fs_demo dir_demo)
    as (w' & Hrun & _ & Hprocs & _).
  - intros p _. reflexivity.
  - reflexivity.
  - vm_compute. discriminate.
  - reflexivity.
  - reflexivity.
  - rewrite Hrun. split; [reflexivity | exact Hprocs].
Defined.

Lemma X16_witness :
  parse_arguments shipped_config
    (with_videos ["a.mp4"; "b.mp4"; "/videos"] (env_demo false never []))
    (init_world fs_demo)
  = (Ok ({| videos := ["a.mp4"; "b.mp4"; "/videos"]; dry_run := false |},
         ["a.mp4"; "b.mp4"; "/videos"]),
     init_world fs_demo).
Proof.
  apply (X16_resolving_the_result_again_is_silent
           shipped_config (env_demo false never []) (init_world fs_demo)).
  vm_compute. discriminate.
Defined.

Lemma X17_witness :
  (run two_displays (env_demo false never [Exits []; Exits [(5, 0%Z)]]) fs_demo).1
    = Diverge /\
  procs (run two_displays (env_demo false never [Exits []; Exits [(5, 0%Z)]]) fs_demo).2
    = [Running; Running].
Proof.
  destruct (X17_players_keep_running_while_nothing_happens
              two_displays (env_demo false never [Exits []; Exits [(5, 0%Z)]])
              fs_demo dir_demo)
    as (w' & Hrun & Hprocs & _).
  - intros p _. reflexivity.
  - reflexivity.
  - vm_compute. discriminate.
  - reflexivity.
  - discriminate.
  - reflexivity.
  - reflexivity.
  - rewrite Hrun. split; [reflexivity | exact Hprocs].
Defined.
